(** * The product catalogue router, embedded in Rocq

    A shallow embedding of the products router (the Express router over
    the [Products] Mongoose model declared in [products.model.js]) and the
    statements of its specification.

    Conventions of the embedding.

    - A JavaScript string is the list of its UTF-16 code units, so that
      [length] is JavaScript's [.length].
    - A request body is a JSON object: an association list from keys to
      [value]s; reading an absent key gives [VUndefined].
    - Numbers are exact decimals [m * 10^e] together with [NaN] and the two
      infinities; the rounding of IEEE doubles is not represented.
    - The document store is explicit state: three collections threaded
      through the handlers.  The store is assumed reachable; a handler's
      [catch] block is entered only by the exceptions listed below.
    - Mongoose is taken with the behaviour of its current major versions
      (7 and 8): schemas are strict, query filters are passed through
      unchanged ([strictQuery] off), [required] on an array path accepts
      every array, and [undefined] values are removed from an update.
    - A computation ends in [Done], in [Thrown] (a JavaScript exception,
      which the handler's [catch] turns into a 500) or in [Beyond]: the
      request leaves the fragment of JavaScript and Mongoose that this
      development interprets.  A handler answers [None] exactly in the
      last case. *)

From Stdlib Require Import List String Ascii ZArith NArith Lia Bool.
From Stdlib Require Import Sorted Permutation QArith Qround DecimalN.
Import ListNotations.

Close Scope Q_scope.
Open Scope string_scope.
Open Scope list_scope.

Set Implicit Arguments.
Set Warnings "-register-all".

(* ================================================================== *)
(** ** JavaScript strings *)

Module JsString.

Definition jschar := N.
Definition jsstring := list jschar.

(** The code units of an ASCII literal. *)
Definition js (s : string) : jsstring :=
  map N_of_ascii (list_ascii_of_string s).

Fixpoint eqb (s t : jsstring) : bool :=
  match s, t with
  | [], [] => true
  | c :: s', d :: t' => N.eqb c d && eqb s' t'
  | _, _ => false
  end.

(** [s.startsWith(p)], returning the rest of [s]. *)
Fixpoint strip_prefix (p s : jsstring) : option jsstring :=
  match p, s with
  | [], _ => Some s
  | c :: p', d :: s' => if N.eqb c d then strip_prefix p' s' else None
  | _ :: _, [] => None
  end.

(** [String.prototype.split] with a one-character separator: the pieces
    between the occurrences of [sep], empty pieces included.  The
    accumulator [cur] holds the piece being read, reversed. *)
Fixpoint split_acc (sep : jschar) (cur : jsstring) (s : jsstring)
  : list jsstring :=
  match s with
  | [] => [rev cur]
  | c :: s' =>
      if N.eqb c sep then rev cur :: split_acc sep [] s'
      else split_acc sep (c :: cur) s'
  end.

Definition split (sep : jschar) (s : jsstring) : list jsstring :=
  split_acc sep [] s.

(** [Array.prototype.join] with a one-character separator. *)
Fixpoint join (sep : jschar) (ws : list jsstring) : jsstring :=
  match ws with
  | [] => []
  | [w] => w
  | w :: ws' => w ++ sep :: join sep ws'
  end.

(** The code units that [parseInt] and [parseFloat] skip at the start
    of their argument (WhiteSpace and LineTerminator). *)
Definition is_white (c : jschar) : bool :=
  existsb (N.eqb c)
    [9; 10; 11; 12; 13; 32; 160; 5760; 8232; 8233; 8239; 8287; 12288; 65279]%N
  || (N.leb 8192 c && N.leb c 8202).

Fixpoint trim_start (s : jsstring) : jsstring :=
  match s with
  | c :: s' => if is_white c then trim_start s' else s
  | [] => []
  end.

Definition digit_val (c : jschar) : option Z :=
  if (N.leb 48 c && N.leb c 57)%bool then Some (Z.of_N c - 48)%Z else None.

Definition hex_val (c : jschar) : option Z :=
  if (N.leb 48 c && N.leb c 57)%bool then Some (Z.of_N c - 48)%Z
  else if (N.leb 97 c && N.leb c 102)%bool then Some (Z.of_N c - 87)%Z
  else if (N.leb 65 c && N.leb c 70)%bool then Some (Z.of_N c - 55)%Z
  else None.

(** The longest prefix of digits in the given radix: its value, how many
    digits it has, and what follows it. *)
Fixpoint digits_acc (dv : jschar -> option Z) (radix acc : Z) (n : nat)
         (s : jsstring) : Z * nat * jsstring :=
  match s with
  | c :: s' =>
      match dv c with
      | Some d => digits_acc dv radix (acc * radix + d)%Z (S n) s'
      | None => (acc, n, s)
      end
  | [] => (acc, n, s)
  end.

Definition digits (dv : jschar -> option Z) (radix : Z) (s : jsstring) :=
  digits_acc dv radix 0%Z 0%nat s.

End JsString.
Export JsString.

(* ================================================================== *)
(** ** Numbers and values *)

Inductive jsnum :=
| NaN
| Infinity (negative : bool)
| Fin (m e : Z).             (* the number m * 10^e *)

Definition isNaN (n : jsnum) : bool :=
  match n with NaN => true | _ => false end.

Definition is_zero (n : jsnum) : bool :=
  match n with Fin m _ => Z.eqb m 0 | _ => false end.

Definition isFinite (n : jsnum) : bool :=
  match n with Fin _ _ => true | _ => false end.

(** [a <= b] on numbers; false when either side is [NaN]. *)
Definition num_leb (a b : jsnum) : bool :=
  match a, b with
  | NaN, _ | _, NaN => false
  | Infinity true, _ => true
  | _, Infinity false => true
  | Infinity false, _ => false
  | _, Infinity true => false
  | Fin m1 e1, Fin m2 e2 =>
      let e := Z.min e1 e2 in
      Z.leb (m1 * 10 ^ (e1 - e)) (m2 * 10 ^ (e2 - e))
  end.

Definition num_eqb (a b : jsnum) : bool := num_leb a b && num_leb b a.

Inductive value :=
| VUndefined
| VNull
| VBool (b : bool)
| VNum (n : jsnum)
| VStr (s : jsstring)
| VObjectId (i : N)            (* BSON ObjectId, in stored documents *)
| VDate (t : Z)                (* milliseconds since the epoch *)
| VArr (xs : list value)
| VObj (fields : list (string * value)).

Definition object := list (string * value).

(** Property read [o.k]. *)
Fixpoint get (o : object) (k : string) : value :=
  match o with
  | [] => VUndefined
  | (k', v) :: o' => if String.eqb k k' then v else get o' k
  end.

Definition has_key (o : object) (k : string) : bool :=
  existsb (fun kv => String.eqb k (fst kv)) o.

(** JavaScript truthiness, the meaning of [!v] and of [a && b] in the
    handlers' guards. *)
Definition truthy (v : value) : bool :=
  match v with
  | VUndefined | VNull => false
  | VBool b => b
  | VNum n => negb (isNaN n || is_zero n)
  | VStr s => match s with [] => false | _ => true end
  | VObjectId _ | VDate _ | VArr _ | VObj _ => true
  end.

(* ================================================================== *)
(** ** Outcomes *)

Inductive outcome (A : Type) :=
| Done (a : A)
| Thrown
| Beyond.

Arguments Thrown {A}.
Arguments Beyond {A}.

Definition bind {A B} (m : outcome A) (k : A -> outcome B) : outcome B :=
  match m with
  | Done a => k a
  | Thrown => Thrown
  | Beyond => Beyond
  end.

Notation "x <- m ;; k" := (bind m (fun x => k))
  (at level 61, m at next level, right associativity).

Definition guard (b : bool) : outcome unit :=
  if b then Done tt else Thrown.

Fixpoint mapM {A B} (f : A -> outcome B) (l : list A) : outcome (list B) :=
  match l with
  | [] => Done []
  | a :: l' => b <- f a ;; bs <- mapM f l' ;; Done (b :: bs)
  end.

(* ================================================================== *)
(** ** The schema and the collections *)

Definition oid := N.
Bind Scope N_scope with oid.

Inductive schematype := SString | SStringArray | SObjectId.

Record schemapath := {
  path : string;
  type : schematype;
  required : bool
}.

(** [ProductSchema] of products.model.js: four declared paths, each
    required, and [timestamps: true]. *)
Definition ProductSchema : list schemapath :=
  [ {| path := "name";        type := SString;      required := true |};
    {| path := "description"; type := SString;      required := true |};
    {| path := "image";       type := SStringArray; required := true |};
    {| path := "author";      type := SObjectId;    required := true |} ].

Definition declares (schema : list schemapath) (k : string) : bool :=
  existsb (fun p => String.eqb k (path p)) schema.

(** A stored product.  The first eight fields are the paths Mongoose
    manages for [ProductSchema]; [extra] holds whatever else the stored
    document carries (fields such as category, price or color written by
    another writer of the collection): the schema does not declare them. *)
Record product := {
  _id : oid;
  name : jsstring;
  description : jsstring;
  image : list jsstring;
  author : oid;
  createdAt : Z;
  updatedAt : Z;
  __v : Z;
  extra : object
}.

(** Modelled from the spec: the User entity, whose model file is not among
    the sources; the router only ever projects it to [username] and
    [email]. *)
Record user := {
  user_id : oid;
  username : jsstring;
  email : jsstring
}.

(** Modelled from the spec: the Review entity (reviews.model.js is not
    among the sources): a reference to its product, a reference to its
    user, and content fields that the router never inspects. *)
Record review := {
  review_id : oid;
  productId : oid;
  userId : oid;
  content : object
}.

Record db := {
  products : list product;
  reviews : list review;
  users : list user
}.

(** The JSON form of a document, as [res.send] serialises it. *)
Definition toObject (p : product) : object :=
  [ ("_id", VObjectId (_id p));
    ("name", VStr (name p));
    ("description", VStr (description p));
    ("image", VArr (map VStr (image p)));
    ("author", VObjectId (author p));
    ("createdAt", VDate (createdAt p));
    ("updatedAt", VDate (updatedAt p));
    ("__v", VNum (Fin (__v p) 0)) ] ++ extra p.

(** *** Casting to the schema types *)

(** String paths.  Strings are kept, [null] and [undefined] stay null,
    an array is a CastError; a number or an object would go through
    [toString], which is not interpreted here. *)
Definition castString (v : value) : outcome (option jsstring) :=
  match v with
  | VUndefined | VNull => Done None
  | VStr s => Done (Some s)
  | VArr _ => Thrown
  | _ => Beyond
  end.

Definition castStringElement (v : value) : outcome jsstring :=
  match v with
  | VStr s => Done s
  | VArr _ => Thrown
  | _ => Beyond
  end.

(** [[String]] paths: an array is cast element by element; in a document
    a lone string is wrapped into a one-element array; in an update a lone
    string is not interpreted. *)
Definition castStringArray (in_update : bool) (v : value)
  : outcome (option (list jsstring)) :=
  match v with
  | VUndefined | VNull => Done None
  | VArr xs => l <- mapM castStringElement xs ;; Done (Some l)
  | VStr s => if in_update then Beyond else Done (Some [s])
  | _ => Beyond
  end.

(** ObjectId paths.  A string of 24 hexadecimal digits is the id it
    spells.  A string of length 12 is taken as raw bytes by some versions
    of the driver and is not interpreted; any other string is a
    CastError. *)
Definition parseObjectId (s : jsstring) : option oid :=
  match digits hex_val 16 s with
  | (n, 24%nat, []) => Some (Z.to_N n)
  | _ => None
  end.

Definition castObjectIdString (s : jsstring) : outcome oid :=
  match parseObjectId s with
  | Some i => Done i
  | None => if Nat.eqb (List.length s) 12 then Beyond else Thrown
  end.

Definition castObjectId (v : value) : outcome (option oid) :=
  match v with
  | VUndefined | VNull => Done None
  | VObjectId i => Done (Some i)
  | VStr s => i <- castObjectIdString s ;; Done (Some i)
  | _ => Beyond
  end.

(** The [required] validators: a string path needs a non-empty string, an
    array path needs an array (an empty one passes), any other path needs a
    value that is not null. *)
Definition requiredString (v : option jsstring) : outcome jsstring :=
  match v with
  | Some (c :: s) => Done (c :: s)
  | _ => Thrown
  end.

Definition requiredValue {A} (v : option A) : outcome A :=
  match v with
  | Some a => Done a
  | None => Thrown
  end.

(** *** The Products model *)

(** [new Products(obj)]: under the schema's strict mode only the declared
    paths of [obj] reach the document. *)
Definition Products_new (obj : object) : object :=
  filter (fun kv => declares ProductSchema (fst kv)) obj.

(** The paths Mongoose adds to every schema with [timestamps: true]. *)
Definition implicit_paths : list string :=
  ["_id"; "createdAt"; "updatedAt"; "__v"].

(** The property read [doc.k] on a hydrated document: Mongoose defines the
    accessor for the paths of the schema only. *)
Definition Document_get (d : product) (k : string) : value :=
  if declares ProductSchema k || existsb (String.eqb k) implicit_paths
  then get (toObject d) k
  else VUndefined.

(** The stored field [k] of a document, as the database sees it. *)
Definition field (d : product) (k : string) : value := get (toObject d) k.

(** What a handler gets from the runtime besides the request: the clock
    read by the timestamps plugin and the ObjectId generated for a new
    document. *)
Record runtime := {
  now : Z;
  newId : oid
}.

Definition lookup (st : db) (i : oid) : option product :=
  find (fun d => N.eqb (_id d) i) (products st).

(** A route parameter used where the schema expects an ObjectId: every
    model call casts it first, and rejects when the cast fails. *)
Definition castParam (id : jsstring) : outcome oid := castObjectIdString id.

Definition Products_findById (st : db) (id : jsstring)
  : outcome (option product) :=
  i <- castParam id ;;
  Done (lookup st i).

(** [doc.save()] on a new document: validation of the declared paths, then
    the insert, which the collection refuses for an [_id] already present. *)
Definition save (rt : runtime) (st : db) (doc : object)
  : outcome (product * db) :=
  nm <- castString (get doc "name") ;;
  ds <- castString (get doc "description") ;;
  im <- castStringArray false (get doc "image") ;;
  au <- castObjectId (get doc "author") ;;
  nm <- requiredString nm ;;
  ds <- requiredString ds ;;
  im <- requiredValue im ;;
  au <- requiredValue au ;;
  _ <- guard (match lookup st (newId rt) with
              | None => true | Some _ => false end) ;;
  let d := {| _id := newId rt; name := nm; description := ds; image := im;
              author := au; createdAt := now rt; updatedAt := now rt;
              __v := 0; extra := [] |} in
  Done (d, {| products := products st ++ [d];
              reviews := reviews st; users := users st |}).

(** *** Query conditions *)

Fixpoint value_eqb (a b : value) {struct a} : bool :=
  match a, b with
  | VUndefined, VUndefined => true
  | VNull, VNull => true
  | VBool x, VBool y => Bool.eqb x y
  | VNum x, VNum y => num_eqb x y
  | VStr x, VStr y => JsString.eqb x y
  | VObjectId x, VObjectId y => N.eqb x y
  | VDate x, VDate y => Z.eqb x y
  | VArr xs, VArr ys =>
      (fix all2 (xs ys : list value) {struct xs} : bool :=
         match xs, ys with
         | [], [] => true
         | x :: xs', y :: ys' => value_eqb x y && all2 xs' ys'
         | _, _ => false
         end) xs ys
  | VObj fs, VObj gs =>
      (fix all2 (fs gs : list (string * value)) {struct fs} : bool :=
         match fs, gs with
         | [], [] => true
         | (k, x) :: fs', (k', y) :: gs' =>
             String.eqb k k' && value_eqb x y && all2 fs' gs'
         | _, _ => false
         end) fs gs
  | _, _ => false
  end.

Definition nullish (v : value) : bool :=
  match v with VUndefined | VNull => true | _ => false end.

(** The equality condition [{ k: q }] against the stored field [f].  The
    driver writes an [undefined] condition as null, and a null condition
    selects the documents whose field is null or missing; any other
    condition selects the documents whose field equals it or is an array
    holding it. *)
Definition matches_eq (q f : value) : bool :=
  if nullish q then
    nullish f || match f with VArr xs => existsb nullish xs | _ => false end
  else
    value_eqb q f
    || match f with VArr xs => existsb (value_eqb q) xs | _ => false end.

(** The range condition [{ k: { $gte: lo, $lte: hi } }]: numbers only, and
    on an array field each bound may be met by its own element. *)
Definition num_geb_value (lo : jsnum) (f : value) : bool :=
  match f with VNum n => num_leb lo n | _ => false end.
Definition num_leb_value (hi : jsnum) (f : value) : bool :=
  match f with VNum n => num_leb n hi | _ => false end.

Definition matches_range (lo hi : jsnum) (f : value) : bool :=
  match f with
  | VArr xs => existsb (num_geb_value lo) xs && existsb (num_leb_value hi) xs
  | _ => num_geb_value lo f && num_leb_value hi f
  end.

(** The [filter] object of the listing handler. *)
Record conditions := {
  where_category : option jsstring;
  where_color : option jsstring;
  where_price : option (jsnum * jsnum)       (* ($gte, $lte) *)
}.

Definition matches (flt : conditions) (d : product) : bool :=
  match where_category flt with
  | Some c => matches_eq (VStr c) (field d "category")
  | None => true
  end
  && match where_color flt with
     | Some c => matches_eq (VStr c) (field d "color")
     | None => true
     end
  && match where_price flt with
     | Some (lo, hi) => matches_range lo hi (field d "price")
     | None => true
     end.

(** *** Populate *)

Record populated (A : Type) := {
  doc : A;
  ref : option object      (* [None] is [null]: the reference dangles *)
}.

(** The projection of a user to the selected fields; [_id] always comes
    with it. *)
Definition select (fields : list string) (u : user) : object :=
  ("_id", VObjectId (user_id u))
  :: filter (fun kv => existsb (String.eqb (fst kv)) fields)
       [ ("username", VStr (username u)); ("email", VStr (email u)) ].

Definition find_user (st : db) (i : oid) : option user :=
  find (fun u => N.eqb (user_id u) i) (users st).

Definition populate {A} (st : db) (key : A -> oid) (fields : list string)
           (d : A) : populated A :=
  {| doc := d;
     ref := option_map (select fields) (find_user st (key d)) |}.

(** *** The query builder of [Products.find]

    The chained calls only record options; the query runs when it is
    awaited, and then the store sorts first, skips, and limits last,
    whatever the order of the calls. *)
Module Query.

Record t := {
  filter_ : conditions;
  skip_ : nat;
  limit_ : option nat;
  sort_ : bool;                       (* { createdAt: -1 } requested *)
  populate_ : option (list string)    (* fields of the author selected *)
}.

Definition find (flt : conditions) : t :=
  {| filter_ := flt; skip_ := 0; limit_ := None; sort_ := false;
     populate_ := None |}.

Definition skip (n : nat) (q : t) : t :=
  {| filter_ := filter_ q; skip_ := n; limit_ := limit_ q;
     sort_ := sort_ q; populate_ := populate_ q |}.

Definition limit (n : nat) (q : t) : t :=
  {| filter_ := filter_ q; skip_ := skip_ q; limit_ := Some n;
     sort_ := sort_ q; populate_ := populate_ q |}.

Definition populate_author (fields : list string) (q : t) : t :=
  {| filter_ := filter_ q; skip_ := skip_ q; limit_ := limit_ q;
     sort_ := sort_ q; populate_ := Some fields |}.

Definition sort_createdAt_desc (q : t) : t :=
  {| filter_ := filter_ q; skip_ := skip_ q; limit_ := limit_ q;
     sort_ := true; populate_ := populate_ q |}.

(** Descending insertion by [createdAt]; among equal times the store's
    own order is kept. *)
Fixpoint insert_desc (d : product) (l : list product) : list product :=
  match l with
  | [] => [d]
  | x :: l' =>
      if Z.leb (createdAt x) (createdAt d) then d :: l
      else x :: insert_desc d l'
  end.

Definition sort_desc (l : list product) : list product :=
  fold_right insert_desc [] l.

Definition exec (st : db) (q : t) : list (populated product) :=
  let found := filter (matches (filter_ q)) (products st) in
  let sorted := if sort_ q then sort_desc found else found in
  let skipped := skipn (skip_ q) sorted in
  let limited := match limit_ q with
                 | Some n => firstn n skipped
                 | None => skipped
                 end in
  map (fun d =>
         match populate_ q with
         | Some fields => populate st author fields d
         | None => {| doc := d; ref := None |}
         end) limited.

End Query.

Definition Products_countDocuments (st : db) (flt : conditions) : Z :=
  Z.of_nat (List.length (filter (matches flt) (products st))).

(* ================================================================== *)
(** ** Global functions of the language *)

(** [parseFloat]: leading white space is skipped, then the longest prefix
    that reads as a decimal literal is taken; [NaN] if there is none. *)
Definition read_sign (s : jsstring) : bool * jsstring :=
  match s with
  | 45%N :: u => (true, u)
  | 43%N :: u => (false, u)
  | _ => (false, s)
  end.

Definition read_exponent (s : jsstring) : Z :=
  match s with
  | c :: r =>
      if N.eqb c 101 || N.eqb c 69 then
        let '(neg, r') := read_sign r in
        let '(ev, n, _) := digits digit_val 10 r' in
        match n with
        | O => 0
        | _ => if neg then - ev else ev
        end
      else 0
  | [] => 0
  end%Z.

Definition parseFloat (s : jsstring) : jsnum :=
  let '(neg, u) := read_sign (trim_start s) in
  match strip_prefix (js "Infinity") u with
  | Some _ => Infinity neg
  | None =>
      let '(ip, ni, r1) := digits digit_val 10 u in
      let '(fp, nf, r2) :=
        match r1 with
        | 46%N :: r => digits digit_val 10 r
        | _ => (0%Z, 0%nat, r1)
        end in
      match (ni + nf)%nat with
      | O => NaN
      | _ =>
          let m := (ip * 10 ^ Z.of_nat nf + fp)%Z in
          Fin (if neg then - m else m) (read_exponent r2 - Z.of_nat nf)
      end
  end.

(** [parseInt] without a radix: white space, a sign, [0x] for base 16, then
    the longest run of digits; [None] is [NaN]. *)
Definition parseInt (s : jsstring) : option Z :=
  let '(neg, u) := read_sign (trim_start s) in
  let '(v, n, _) :=
    match u with
    | 48%N :: x :: r =>
        if N.eqb x 120 || N.eqb x 88 then digits hex_val 16 r
        else digits digit_val 10 u
    | _ => digits digit_val 10 u
    end in
  match n with
  | O => None
  | _ => Some (if neg then - v else v)%Z
  end.

(** [Math.ceil(a / b)] on integers, through the exact quotient. *)
Definition Math_ceil (q : Q) : Z := Qceiling q.

(** [new RegExp(pattern, "i")]: the characters with a meaning in a pattern. *)
Definition is_syntax_char (c : jschar) : bool :=
  existsb (N.eqb c) (js "^$\.*+?()[]{}|").

Definition bar : jschar := 124%N.    (* | *)
Definition space : jschar := 32%N.

Definition is_quantifier (c : jschar) : bool :=
  existsb (N.eqb c) (js "*+?").

(** A compiled pattern of the interpreted fragment: an alternation of
    literal strings, matched without regard to case. *)
Record RegExp := {
  alternatives : list jsstring
}.

(** A pattern made of ordinary characters and [|] is the alternation of the
    pieces between the bars.  A pattern that opens with a quantifier has
    nothing to repeat: the constructor throws a SyntaxError.  Any other
    use of a syntax character is not interpreted. *)
Definition RegExp_new (pattern : jsstring) : outcome RegExp :=
  if match pattern with c :: _ => is_quantifier c | [] => false end
  then Thrown
  else if forallb (fun c => negb (is_syntax_char c) || N.eqb c bar) pattern
  then Done {| alternatives := split bar pattern |}
  else Beyond.

(** Case folding of the [i] flag, on the ASCII letters; other code units
    are compared as they are. *)
Definition canonicalize (c : jschar) : jschar :=
  if N.leb 97 c && N.leb c 122 then (c - 32)%N else c.

Fixpoint prefix_ci (p s : jsstring) : bool :=
  match p, s with
  | [], _ => true
  | c :: p', d :: s' => N.eqb (canonicalize c) (canonicalize d) && prefix_ci p' s'
  | _ :: _, [] => false
  end.

Fixpoint occurs_ci (p s : jsstring) : bool :=
  prefix_ci p s
  || match s with
     | [] => false
     | _ :: s' => occurs_ci p s'
     end.

(** [{ name: { $regex: re } }] on a string field: the pattern is searched
    anywhere in the string. *)
Definition RegExp_test (re : RegExp) (s : jsstring) : bool :=
  existsb (fun a => occurs_ci a s) (alternatives re).

(* ================================================================== *)
(** ** Responses *)

Inductive body :=
| Message (message : string)
| Failure (message : string)          (* { message, error: error.message } *)
| Saved (savedProduct : product)
| Page (products : list (populated product)) (totalPages totalProducts : Z)
| Single (product : populated product) (reviews : list (populated review))
| Updated (message : string) (product : product)
| Related (relatedProducts : list product).

Record response := {
  status : Z;
  sent : body
}.

Definition respond (s : Z) (b : body) : response := {| status := s; sent := b |}.

(** [try { ... } catch (error) { res.status(500).send(...) }].  None of the
    handlers can throw after a write to the store, so the store at the
    catch is the one the handler started from. *)
Definition try_catch (st : db) (m : outcome (response * db)) (on_error : body)
  : option (response * db) :=
  match m with
  | Done r => Some r
  | Thrown => Some (respond 500 on_error, st)
  | Beyond => None
  end.

(* ================================================================== *)
(** ** POST /create-product *)

(** The default category of a new product: the word for "general",
    U+0639 U+0627 U+0645. *)
Definition category_default : jsstring := [1593; 1575; 1605]%N.

Definition msg_required : string :=
  "الحقول الأساسية مطلوبة: الاسم، الوصف، الصورة والمؤلف".
Definition msg_create_failed : string := "فشل إنشاء المنتج".

(** The object literal handed to [new Products]. *)
Definition newProduct_fields (name description image author : value) : object :=
  [ ("name", name);
    ("description", description);
    ("image", image);
    ("author", author);
    ("category", VStr category_default);
    ("price", VNum (Fin 0 0));
    ("quantity", VNum (Fin 1 0)) ].

Definition create_product (rt : runtime) (st : db) (req_body : object)
  : option (response * db) :=
  let name := get req_body "name" in
  let description := get req_body "description" in
  let image := get req_body "image" in
  let author := get req_body "author" in
  if negb (truthy name) || negb (truthy description)
     || negb (truthy image) || negb (truthy author)
  then Some (respond 400 (Message msg_required), st)
  else
    let newProduct := Products_new (newProduct_fields name description image author) in
    try_catch st
      (r <- save rt st newProduct ;;
       let '(savedProduct, st') := r in
       Done (respond 201 (Saved savedProduct), st'))
      (Message msg_create_failed).

(* ================================================================== *)
(** ** GET / *)

(** [req.query]: the parameters of the query string, each a string. *)
Definition params := list (string * jsstring).

Fixpoint param (q : params) (k : string) : option jsstring :=
  match q with
  | [] => None
  | (k', v) :: q' => if String.eqb k k' then Some v else param q' k
  end.

(** Truthiness of a parameter: present and not the empty string. *)
Definition given (v : option jsstring) : bool :=
  match v with
  | Some (_ :: _) => true
  | _ => false
  end.

Definition text (v : option jsstring) : jsstring :=
  match v with Some s => s | None => [] end.

Definition choose (v : option jsstring) : option jsstring :=
  if given v && negb (JsString.eqb (text v) (js "all")) then v else None.

(** The [filter] built from the query string. *)
Definition build_filter (q : params) : conditions :=
  let category := param q "category" in
  let color := param q "color" in
  let minPrice := param q "minPrice" in
  let maxPrice := param q "maxPrice" in
  {| where_category := choose category;
     where_color := choose color;
     where_price :=
       if given minPrice && given maxPrice then
         let min := parseFloat (text minPrice) in
         let max := parseFloat (text maxPrice) in
         if negb (isNaN min) && negb (isNaN max) then Some (min, max)
         else None
       else None |}.

(** [parseInt] of a destructured parameter with a numeric default. *)
Definition parseInt_default (v : option jsstring) (default : Z) : option Z :=
  match v with
  | Some s => parseInt s
  | None => Some default
  end.

(** The listing is interpreted for a page and a limit that both read as
    integers from 1 up; a [NaN], a negative skip or a limit below 1 are
    left to the store and not interpreted. *)
Definition get_products (st : db) (q : params) : option (response * db) :=
  let flt := build_filter q in
  match parseInt_default (param q "page") 1,
        parseInt_default (param q "limit") 10 with
  | Some page, Some limit =>
      if Z.leb 1 page && Z.leb 1 limit then
        let skip := ((page - 1) * limit)%Z in
        let totalProducts := Products_countDocuments st flt in
        let totalPages :=
          Math_ceil (inject_Z totalProducts / inject_Z limit) in
        let products :=
          Query.exec st
            (Query.sort_createdAt_desc
               (Query.populate_author ["email"]
                  (Query.limit (Z.to_nat limit)
                     (Query.skip (Z.to_nat skip)
                        (Query.find flt))))) in
        Some (respond 200 (Page products totalPages totalProducts), st)
      else None
  | _, _ => None
  end.

(* ================================================================== *)
(** ** GET /:id *)

(** [Reviews.find({ productId }).populate("userId", fields)]. *)
Definition Reviews_find (st : db) (id : jsstring) (fields : list string)
  : outcome (list (populated review)) :=
  i <- castParam id ;;
  Done (map (populate st userId fields)
            (filter (fun r => N.eqb (productId r) i) (reviews st))).

Definition get_product (st : db) (id : jsstring) : option (response * db) :=
  try_catch st
    (product <- Products_findById st id ;;
     match product with
     | None => Done (respond 404 (Message "Product not found"), st)
     | Some product =>
         reviews <- Reviews_find st id ["username"; "email"] ;;
         Done (respond 200
                 (Single (populate st author ["email"; "username"] product)
                         reviews), st)
     end)
    (Message "Failed to fetch the product").

(* ================================================================== *)
(** ** PATCH /update-product/:id

    The handler runs after [verifyToken], [verifyAdmin] and the multer
    upload; [req_file] is the path of the stored upload, if there was one. *)

(** [{ ...o, k: v }] and [o.k = v]. *)
Fixpoint set (k : string) (v : value) (o : object) : object :=
  match o with
  | [] => [(k, v)]
  | (k', v') :: o' =>
      if String.eqb k k' then (k, v) :: o' else (k', v') :: set k v o'
  end.

(** The keys of a [$set] that the update casts against the schema.  A key
    outside the schema is dropped by strict mode; a key that addresses one
    of Mongoose's own paths, a nested position or an operator is not
    interpreted. *)
Definition key_beyond (k : string) : bool :=
  existsb (String.eqb k) implicit_paths
  || existsb (fun c => Ascii.eqb c "."%char || Ascii.eqb c "$"%char)
       (list_ascii_of_string k).

Definition msg_not_found : string := "المنتج غير موجود".
Definition msg_updated : string := "تم تحديث المنتج بنجاح".
Definition msg_update_failed : string := "فشل تحديث المنتج".

(** One path of the [$set]: an absent or [undefined] value leaves the path
    alone; any other value is cast and, with [runValidators], checked. *)
Definition set_path {A B} (o : object) (k : string)
           (cast : value -> outcome (option A))
           (validate : option A -> outcome B) : outcome (option B) :=
  match get o k with
  | VUndefined => Done None
  | v => c <- cast v ;; b <- validate c ;; Done (Some b)
  end.

Record changes := {
  set_name : option jsstring;
  set_description : option jsstring;
  set_image : option (list jsstring);
  set_author : option oid
}.

Definition castUpdate (updateData : object) : outcome changes :=
  if existsb (fun kv => key_beyond (fst kv)) updateData then Beyond
  else
    nm <- set_path updateData "name" castString requiredString ;;
    ds <- set_path updateData "description" castString requiredString ;;
    im <- set_path updateData "image" (castStringArray true) requiredValue ;;
    au <- set_path updateData "author" castObjectId requiredValue ;;
    Done {| set_name := nm; set_description := ds; set_image := im;
            set_author := au |}.

Definition or_else {A} (o : option A) (a : A) : A :=
  match o with Some x => x | None => a end.

Definition apply_changes (rt : runtime) (c : changes) (d : product) : product :=
  {| _id := _id d;
     name := or_else (set_name c) (name d);
     description := or_else (set_description c) (description d);
     image := or_else (set_image c) (image d);
     author := or_else (set_author c) (author d);
     createdAt := createdAt d;
     updatedAt := now rt;
     __v := __v d;
     extra := extra d |}.

Definition replace (d : product) (l : list product) : list product :=
  map (fun x => if N.eqb (_id x) (_id d) then d else x) l.

(** [Products.findByIdAndUpdate(id, { $set: updateData },
    { new: true, runValidators: true })]: the update is cast and validated
    before the store is asked; the updated document is returned. *)
Definition Products_findByIdAndUpdate (rt : runtime) (st : db) (id : jsstring)
           (updateData : object) : outcome (option (product * db)) :=
  i <- castParam id ;;
  c <- castUpdate updateData ;;
  match lookup st i with
  | None => Done None
  | Some d =>
      let d' := apply_changes rt c d in
      Done (Some (d', {| products := replace d' (products st);
                         reviews := reviews st; users := users st |}))
  end.

Definition update_product (rt : runtime) (st : db) (id : jsstring)
           (req_body : object) (req_file : option jsstring)
  : option (response * db) :=
  let updateData := set "author" (get req_body "author") req_body in
  let updateData :=
    match req_file with
    | Some file_path => set "image" (VArr [VStr file_path]) updateData
    | None => updateData
    end in
  try_catch st
    (r <- Products_findByIdAndUpdate rt st id updateData ;;
     match r with
     | None => Done (respond 404 (Message msg_not_found), st)
     | Some (updatedProduct, st') =>
         Done (respond 200 (Updated msg_updated updatedProduct), st')
     end)
    (Failure msg_update_failed).

(* ================================================================== *)
(** ** DELETE /:id *)

Fixpoint remove_first (i : oid) (l : list product) : list product :=
  match l with
  | [] => []
  | d :: l' => if N.eqb (_id d) i then l' else d :: remove_first i l'
  end.

Definition Products_findByIdAndDelete (st : db) (id : jsstring)
  : outcome (option (product * db)) :=
  i <- castParam id ;;
  Done (option_map
          (fun d => (d, {| products := remove_first i (products st);
                           reviews := reviews st; users := users st |}))
          (lookup st i)).

(** [Reviews.deleteMany({ productId: id })]. *)
Definition Reviews_deleteMany (st : db) (id : jsstring) : outcome db :=
  i <- castParam id ;;
  Done {| products := products st;
          reviews := filter (fun r => negb (N.eqb (productId r) i)) (reviews st);
          users := users st |}.

Definition delete_product (st : db) (id : jsstring) : option (response * db) :=
  try_catch st
    (deletedProduct <- Products_findByIdAndDelete st id ;;
     match deletedProduct with
     | None => Done (respond 404 (Message "Product not found"), st)
     | Some (_, st1) =>
         st2 <- Reviews_deleteMany st1 id ;;
         Done (respond 200 (Message "Product deleted successfully"), st2)
     end)
    (Message "Failed to delete the product").

(* ================================================================== *)
(** ** GET /related/:id *)

(** The words of a name that enter the pattern. *)
Definition words (name : jsstring) : list jsstring :=
  filter (fun word => Nat.ltb 1 (List.length word)) (split space name).

(** The conditions of the related query:
    [{ _id: { $ne: id }, $or: [ { name: { $regex: titleRegex } },
                                { category: category } ] }]. *)
Definition related_to (i : oid) (titleRegex : RegExp) (category : value)
           (d : product) : bool :=
  negb (N.eqb (_id d) i)
  && (RegExp_test titleRegex (name d)
      || matches_eq category (field d "category")).

Definition related (st : db) (id : jsstring) : option (response * db) :=
  match id with
  | [] => Some (respond 400 (Message "Product ID is required"), st)
  | _ =>
      try_catch st
        (product <- Products_findById st id ;;
         match product with
         | None => Done (respond 404 (Message "Product not found"), st)
         | Some product =>
             titleRegex <- RegExp_new (join bar (words (name product))) ;;
             i <- castParam id ;;
             let relatedProducts :=
               filter (related_to i titleRegex (Document_get product "category"))
                      (products st) in
             Done (respond 200 (Related relatedProducts), st)
         end)
        (Message "Failed to fetch related products")
  end.

(* ================================================================== *)
(** ** Sample stores and requests *)

Module CreateExample.

Definition st0 : db := {| products := []; reviews := []; users := [] |}.
Definition rt : runtime := {| now := 1700000000000%Z; newId := 1%N |}.

Definition req_body : object :=
  [ ("name", VStr (js "Shoes"));
    ("description", VStr (js "Running shoes"));
    ("image", VArr [VStr (js "shoes.png")]);
    ("author", VStr (js "64b7f0c2a1b2c3d4e5f60718")) ].

Definition saved : product :=
  {| _id := 1%N; name := js "Shoes"; description := js "Running shoes";
     image := [js "shoes.png"]; author := 31170871365399813531073120024%N;
     createdAt := 1700000000000%Z; updatedAt := 1700000000000%Z;
     __v := 0%Z; extra := [] |}.

(** The same request with a category, a price and a quantity of the
    caller's own. *)
Definition req_body_supplied : object :=
  req_body
  ++ [ ("category", VStr (js "shoes"));
       ("price", VNum (Fin 99 0));
       ("quantity", VNum (Fin 5 0)) ].

End CreateExample.

(* ================================================================== *)
(** ** Sequences of writes *)

Inductive request :=
| Create (rt : runtime) (req_body : object)
| Update (rt : runtime) (id : jsstring) (req_body : object)
         (req_file : option jsstring).

Definition serve (st : db) (r : request) : option (response * db) :=
  match r with
  | Create rt req_body => create_product rt st req_body
  | Update rt id req_body req_file => update_product rt st id req_body req_file
  end.

(** The store after a sequence of create and update requests. *)
Fixpoint run (st : db) (rs : list request) : option db :=
  match rs with
  | [] => Some st
  | r :: rs' =>
      match serve st r with
      | Some (_, st') => run st' rs'
      | None => None
      end
  end.

Definition images_nonempty (st : db) : Prop :=
  Forall (fun d => image d <> []) (products st).

(** The image a request carries in its body. *)
Definition body_image (r : request) : value :=
  match r with
  | Create _ req_body => get req_body "image"
  | Update _ _ req_body _ => get req_body "image"
  end.

Module ImageExample.

Definition empty_image : object :=
  [ ("name", VStr (js "Shoes"));
    ("description", VStr (js "Running shoes"));
    ("image", VArr []);
    ("author", VStr (js "64b7f0c2a1b2c3d4e5f60718")) ].

Definition stored : product :=
  {| _id := 1%N; name := js "Shoes"; description := js "Running shoes";
     image := []; author := 31170871365399813531073120024%N;
     createdAt := 1700000000000%Z; updatedAt := 1700000000000%Z;
     __v := 0%Z; extra := [] |}.

Definition later : runtime := {| now := 1700000000500%Z; newId := 2%N |}.
Definition id1 : jsstring := js "000000000000000000000001".
Definition upload : jsstring := js "uploads/products/image-1700000000500-7.png".

End ImageExample.

(* ================================================================== *)
(** ** A small catalogue *)

Module Catalogue.

Definition item (i : oid) (title : string) (category : option string)
           (created : Z) : product :=
  {| _id := i; name := js title; description := js "-";
     image := [js "item.png"]; author := 7%N;
     createdAt := created; updatedAt := created; __v := 0%Z;
     extra := match category with
              | Some c => [("category", VStr (js c))]
              | None => []
              end |}.

Definition red_shoes := item 1 "Red Shoes Size 10" (Some "footwear") 10.
Definition blue_shoes := item 2 "Blue Shoes" (Some "apparel") 20.
Definition hat := item 3 "Hat" (Some "footwear") 30.
Definition lamp := item 4 "Lamp" (Some "home") 40.

Definition bob : user :=
  {| user_id := 7%N; username := js "bob"; email := js "bob@example.com" |}.

Definition review1 : review :=
  {| review_id := 100%N; productId := 1%N; userId := 7%N; content := [] |}.
Definition review2 : review :=
  {| review_id := 101%N; productId := 2%N; userId := 8%N; content := [] |}.
Definition review3 : review :=
  {| review_id := 102%N; productId := 1%N; userId := 8%N; content := [] |}.

Definition st : db :=
  {| products := [red_shoes; blue_shoes; hat; lamp];
     reviews := [review1; review2; review3];
     users := [bob] |}.

Definition id1 : jsstring := js "000000000000000000000001".
Definition id9 : jsstring := js "000000000000000000000009".

(** What a reference to bob is replaced by. *)
Definition bob_ref : object :=
  [ ("_id", VObjectId 7%N);
    ("username", VStr (js "bob"));
    ("email", VStr (js "bob@example.com")) ].

End Catalogue.

(* ================================================================== *)
(** ** Notions used in the statements *)

(** A reference to the user [i] expanded to username and email: the
    object holding the id, the username and the email of a user of the
    collection with that id, or null when the collection has no such
    user. *)
Definition expanded_user (st : db) (i : oid) (r : option object) : Prop :=
  (exists u, In u (users st) /\ user_id u = i
             /\ r = Some [ ("_id", VObjectId i);
                           ("username", VStr (username u));
                           ("email", VStr (email u)) ])
  \/ ((forall u, In u (users st) -> user_id u <> i) /\ r = None).

(** No product of the collection has the id that the parameter spells. *)
Definition names_no_product (st : db) (id : jsstring) : Prop :=
  forall d, In d (products st) -> parseObjectId id <> Some (_id d).

(** Newest first: the order [{ createdAt: -1 }] asks for. *)
Definition newest_first (a b : product) : Prop :=
  (createdAt b <= createdAt a)%Z.

(** The specification's wording of when the price range applies: both
    parameters present and both reading as finite numbers. *)
Definition both_finite (q : params) : Prop :=
  exists a b,
    param q "minPrice" = Some a /\ param q "maxPrice" = Some b
    /\ isFinite (parseFloat a) = true /\ isFinite (parseFloat b) = true.

(** The listing's conditions without their price range. *)
Definition without_price (flt : conditions) : conditions :=
  {| where_category := where_category flt;
     where_color := where_color flt;
     where_price := None |}.

(** A string occurs in another one up to the case folding of the [i]
    flag. *)
Definition contains_ci (w s : jsstring) : Prop :=
  exists pre mid post,
    s = pre ++ mid ++ post /\ map canonicalize mid = map canonicalize w.

(** A word without any character that has a meaning in a pattern. *)
Definition plain (w : jsstring) : Prop :=
  forallb (fun c => negb (is_syntax_char c)) w = true.

(** The specification's wording of the related lookup: the tokens of a
    name are its maximal runs of characters that are not white space; the
    related products are the other products whose name holds, case
    ignored, a token longer than one character, or whose category is the
    target's. *)
Fixpoint tokens_acc (cur : jsstring) (s : jsstring) : list jsstring :=
  match s with
  | [] => match cur with [] => [] | _ => [rev cur] end
  | c :: s' =>
      if is_white c then
        match cur with
        | [] => tokens_acc [] s'
        | _ => rev cur :: tokens_acc [] s'
        end
      else tokens_acc (c :: cur) s'
  end.

Definition whitespace_tokens (s : jsstring) : list jsstring := tokens_acc [] s.

Definition long_tokens (s : jsstring) : list jsstring :=
  filter (fun w => Nat.ltb 1 (List.length w)) (whitespace_tokens s).

Definition related_as_specified (st : db) (target : product) : list product :=
  filter (fun d =>
            negb (N.eqb (_id d) (_id target))
            && (existsb (fun w => occurs_ci w (name d)) (long_tokens (name target))
                || value_eqb (field target "category") (field d "category")))
         (products st).

Module RelatedExample.

Import Catalogue.

(** A name whose first word opens with a quantifier. *)
Definition new_shoes := item 1 "*NEW* Shoes" (Some "footwear") 10.
Definition st_quantifier : db :=
  {| products := [new_shoes; blue_shoes]; reviews := []; users := [] |}.

(** A name whose two words are separated by a tab. *)
Definition tabbed : product :=
  {| _id := 1; name := js "Red" ++ [9%N] ++ js "Shoes"; description := js "-";
     image := [js "item.png"]; author := 7;
     createdAt := 10; updatedAt := 10; __v := 0;
     extra := [("category", VStr (js "footwear"))] |}.
Definition shoes := item 2 "Shoes" (Some "apparel") 20.
Definition st_tab : db :=
  {| products := [tabbed; shoes]; reviews := []; users := [] |}.

(** A name made of a single one-character word. *)
Definition a := item 1 "A" (Some "footwear") 10.
Definition st_single : db :=
  {| products := [a; blue_shoes; lamp]; reviews := []; users := [] |}.

End RelatedExample.

(** The ids of a collection are unique, as the store's index on [_id]
    keeps them. *)
Definition ids_unique (st : db) : Prop := NoDup (map _id (products st)).

(* ================================================================== *)
(** ** The upload middleware

    [multer] with disk storage, as the router configures it: where an
    uploaded file is written, under which name, and which files are
    accepted. *)

(** The decimal digits of a natural number: the string of a non-negative
    integer below 10^21, which covers [Date.now()] and a rounded multiple
    of [Math.random()]. *)
Fixpoint uint_chars (d : Decimal.uint) : jsstring :=
  match d with
  | Decimal.Nil => []
  | Decimal.D0 d' => 48%N :: uint_chars d'
  | Decimal.D1 d' => 49%N :: uint_chars d'
  | Decimal.D2 d' => 50%N :: uint_chars d'
  | Decimal.D3 d' => 51%N :: uint_chars d'
  | Decimal.D4 d' => 52%N :: uint_chars d'
  | Decimal.D5 d' => 53%N :: uint_chars d'
  | Decimal.D6 d' => 54%N :: uint_chars d'
  | Decimal.D7 d' => 55%N :: uint_chars d'
  | Decimal.D8 d' => 56%N :: uint_chars d'
  | Decimal.D9 d' => 57%N :: uint_chars d'
  end.

Definition Number_toString (n : N) : jsstring := uint_chars (N.to_uint n).

Definition dot : jschar := 46%N.
Definition dash : jschar := 45%N.
Definition slash : jschar := 47%N.

(** A file part of a multipart request, as multer hands it to the storage
    and to the filter. *)
Record file_part := {
  fieldname : jsstring;
  originalname : jsstring;
  mimetype : jsstring;
  size : N
}.

(** What the storage reads from the runtime: [Date.now()] and
    [Math.round(Math.random() * 1E9)], an integer from 0 to 10^9. *)
Record upload_runtime := {
  Date_now : N;
  random_1E9 : N
}.

Definition destination : jsstring := js "uploads/products/".

(** [array.pop()] on the pieces of a split: the last piece. *)
Definition pop (pieces : list jsstring) : jsstring := last pieces [].

Definition filename (urt : upload_runtime) (file : file_part) : jsstring :=
  let uniqueSuffix :=
    Number_toString (Date_now urt) ++ dash :: Number_toString (random_1E9 urt) in
  fieldname file ++ dash :: uniqueSuffix
  ++ dot :: pop (split dot (originalname file)).

Definition fileFilter (file : file_part) : bool :=
  match strip_prefix (js "image/") (mimetype file) with
  | Some _ => true
  | None => false
  end.

Definition fileSize : N := 5 * 1024 * 1024.

Inductive uploaded :=
| Stored (req_file : option jsstring)   (* [req.file.path], if a file came *)
| Rejected.                             (* [next(err)]: the handler is skipped *)

(** [upload.single(name)].  A request without a file part goes on with no
    [req.file].  A file under another field, a file the filter refuses and
    a file of more bytes than the size limit end the request with an
    error.  An accepted file, one of exactly the limit included, is
    written to the destination under [filename].  An original name with a
    slash (the parser passes base names only) is not interpreted. *)
Definition upload_single (name : jsstring) (urt : upload_runtime)
           (part : option file_part) : option uploaded :=
  match part with
  | None => Some (Stored None)
  | Some file =>
      if existsb (N.eqb slash) (originalname file) then None
      else if negb (JsString.eqb (fieldname file) name) then Some Rejected
      else if negb (fileFilter file) then Some Rejected
      else if N.ltb fileSize (size file) then Some Rejected
      else Some (Stored (Some (destination ++ filename urt file)))
  end.

(** *** PATCH /update-product/:id with its middleware

    [verifyToken] and [verifyAdmin] are not among the sources: each one
    either passes the request on, possibly changed, or answers it
    itself. *)
Inductive routed :=
| Handled (r : response)
| Refused          (* a check answered the request *)
| Errored.         (* Express's error handler answered it *)

Section UpdateRoute.

Variable request_info : Type.
Variables verifyToken verifyAdmin : request_info -> option request_info.

Definition patch_update_product (rt : runtime) (urt : upload_runtime)
           (st : db) (req : request_info) (id : jsstring) (req_body : object)
           (part : option file_part) : option (routed * db) :=
  match verifyToken req with
  | None => Some (Refused, st)
  | Some req1 =>
      match verifyAdmin req1 with
      | None => Some (Refused, st)
      | Some _ =>
          match upload_single (js "image") urt part with
          | None => None
          | Some Rejected => Some (Errored, st)
          | Some (Stored req_file) =>
              match update_product rt st id req_body req_file with
              | Some (r, st') => Some (Handled r, st')
              | None => None
              end
          end
      end
  end.

End UpdateRoute.

(* ================================================================== *)
(** ** POST /uploadImages

    [uploadImages] of utils/uploadImage is not among the sources: it is
    given the array of the body and resolves to the uploaded locations or
    rejects. *)

Inductive images_answer :=
| Locations (status : Z) (uploadedUrls : value)
| Problem (status : Z) (message : string).

Definition msg_images_required : string := "يجب إرسال مصفوفة من الصور".
Definition msg_images_failed : string := "حدث خطأ أثناء تحميل الصور".

Definition isArray (v : value) : bool :=
  match v with VArr _ => true | _ => false end.

Section UploadImages.

Variable uploadImages : list value -> outcome value.

Definition post_uploadImages (st : db) (req_body : object)
  : option (images_answer * db) :=
  let images := get req_body "images" in
  if negb (truthy images) || negb (isArray images)
  then Some (Problem 400 msg_images_required, st)
  else
    match images with
    | VArr xs =>
        match uploadImages xs with
        | Done uploadedUrls => Some (Locations 200 uploadedUrls, st)
        | Thrown => Some (Problem 500 msg_images_failed, st)
        | Beyond => None
        end
    | _ => None
    end.

End UploadImages.

(* ================================================================== *)
(** ** The router as a whole *)

Inductive call :=
| CreateProduct (rt : runtime) (req_body : object)
| GetProducts (q : params)
| GetProduct (id : jsstring)
| UpdateProduct (rt : runtime) (id : jsstring) (req_body : object)
                (req_file : option jsstring)
| DeleteProduct (id : jsstring)
| RelatedProducts (id : jsstring).

Definition handle (st : db) (c : call) : option (response * db) :=
  match c with
  | CreateProduct rt req_body => create_product rt st req_body
  | GetProducts q => get_products st q
  | GetProduct id => get_product st id
  | UpdateProduct rt id req_body req_file =>
      update_product rt st id req_body req_file
  | DeleteProduct id => delete_product st id
  | RelatedProducts id => related st id
  end.

(** The store after a sequence of calls. *)
Fixpoint run_calls (st : db) (cs : list call) : option db :=
  match cs with
  | [] => Some st
  | c :: cs' =>
      match handle st c with
      | Some (_, st') => run_calls st' cs'
      | None => None
      end
  end.

(** Every product has a name and a description. *)
Definition named (st : db) : Prop :=
  Forall (fun d => name d <> [] /\ description d <> []) (products st).

(** [st'] holds no field outside the schema that [st] did not hold: each
    product of [st'] either carries none, or carries those of the product
    of [st] with its id. *)
Definition no_new_fields (st st' : db) : Prop :=
  forall d', In d' (products st') ->
    extra d' = []
    \/ exists d, In d (products st) /\ _id d = _id d' /\ extra d = extra d'.

(** The products of an answer of the listing. *)
Definition listed (r : option (response * db)) : list product :=
  match r with
  | Some (r, _) =>
      match sent r with
      | Page products _ _ => map (@doc product) products
      | _ => []
      end
  | None => []
  end.

(* ================================================================== *)
(** ** Sample uploads *)

Definition is_digit (c : jschar) : Prop := (48 <= c <= 57)%N.

Module UploadExample.
Definition photo : file_part :=
  {| fieldname := js "image"; originalname := js "my.photo.PNG";
     mimetype := js "image/png"; size := 204800 |}.
Definition at_noon : upload_runtime :=
  {| Date_now := 1700000000500; random_1E9 := 7 |}.
Definition a_bit_later : upload_runtime :=
  {| Date_now := 1700000000501; random_1E9 := 7 |}.
(** A file of exactly the size limit, and one byte more. *)
Definition full : file_part :=
  {| fieldname := js "image"; originalname := js "full.png";
     mimetype := js "image/png"; size := 5242880 |}.
Definition too_big : file_part :=
  {| fieldname := js "image"; originalname := js "big.png";
     mimetype := js "image/png"; size := 5242881 |}.
End UploadExample.

(** The [updateData] of the update handler. *)
Definition update_data (req_body : object) (req_file : option jsstring)
  : object :=
  let updateData := set "author" (get req_body "author") req_body in
  match req_file with
  | Some file_path => set "image" (VArr [VStr file_path]) updateData
  | None => updateData
  end.

(* ================================================================== *)
(** ** A sample session *)

Module Session.
Definition calls : list call :=
  [ CreateProduct CreateExample.rt CreateExample.req_body;
    GetProducts [("category", js "all")];
    UpdateProduct ImageExample.later ImageExample.id1
      [("name", VStr (js "Trail shoes")); ("price", VNum (Fin 30 0))]
      (Some ImageExample.upload);
    RelatedProducts ImageExample.id1;
    DeleteProduct Catalogue.id9 ].

Definition final : db :=
  {| products :=
       [ {| _id := 1; name := js "Trail shoes"; description := js "Running shoes";
            image := [ImageExample.upload];
            author := 31170871365399813531073120024%N;
            createdAt := 1700000000000; updatedAt := 1700000000500;
            __v := 0; extra := [] |} ];
     reviews := []; users := [] |}.
End Session.

Module ListingExample.
Definition rt : runtime := {| now := 1700000000500%Z; newId := 9%N |}.
End ListingExample.

(* ================================================================== *)
(** * Properties *)

(** ** Objects *)

Lemma get_absent (o : object) (k : string) :
  has_key o k = false -> get o k = VUndefined.
Proof.
  induction o as [|[k' v] o IH]; simpl; [reflexivity|].
  destruct (String.eqb k k'); simpl; [discriminate|exact IH].
Qed.

Lemma get_set_same (o : object) (k : string) (v : value) :
  get (set k v o) k = v.
Proof.
  induction o as [|[k' v'] o IH]; simpl.
  - now rewrite String.eqb_refl.
  - destruct (String.eqb k k') eqn:E; simpl.
    + now rewrite String.eqb_refl.
    + now rewrite E.
Qed.

Lemma get_set_other (o : object) (k k' : string) (v : value) :
  k <> k' -> get (set k v o) k' = get o k'.
Proof.
  intros Hne. induction o as [|[k0 v0] o IH]; simpl.
  - destruct (String.eqb k' k) eqn:E; [|reflexivity].
    apply String.eqb_eq in E. congruence.
  - destruct (String.eqb k k0) eqn:E; simpl.
    + apply String.eqb_eq in E. subst k0.
      destruct (String.eqb k' k) eqn:E'; [|reflexivity].
      apply String.eqb_eq in E'. congruence.
    + now rewrite IH.
Qed.

(** ** Outcomes *)

Lemma bind_Done {A B} (m : outcome A) (k : A -> outcome B) (b : B) :
  bind m k = Done b -> exists a, m = Done a /\ k a = Done b.
Proof. destruct m; simpl; intros H; try discriminate. eauto. Qed.

Lemma mapM_length {A B} (f : A -> outcome B) (l : list A) (r : list B) :
  mapM f l = Done r -> List.length r = List.length l.
Proof.
  revert r. induction l as [|a l IH]; simpl; intros r H.
  - now inversion H.
  - apply bind_Done in H as (b & _ & H).
    apply bind_Done in H as (bs & Hbs & H).
    inversion H; subst. simpl. f_equal. now apply IH.
Qed.

Ltac invert_bind H :=
  repeat match type of H with
    | bind _ _ = Done _ =>
        let x := fresh "x" in
        let Hx := fresh "Hx" in
        apply bind_Done in H as (x & Hx & H)
    end.

Lemma castParam_Some (id : jsstring) (i : oid) :
  parseObjectId id = Some i -> castParam id = Done i.
Proof. unfold castParam, castObjectIdString. now intros ->. Qed.

(** ** Creating a product *)

(** What [save] stores is what it returns: the cast of the four declared
    paths, the runtime's id and clock, and nothing else. *)
Lemma save_Done (rt : runtime) (st : db) (o : object) (d : product) (st' : db) :
  save rt st o = Done (d, st') ->
  castStringArray false (get o "image") = Done (Some (image d))
  /\ castString (get o "name") = Done (Some (name d))
  /\ _id d = newId rt
  /\ extra d = []
  /\ lookup st (newId rt) = None
  /\ st' = {| products := products st ++ [d];
              reviews := reviews st; users := users st |}.
Proof.
  unfold save. intros H. invert_bind H.
  destruct x as [[|c nm]|]; simpl in Hx3; try discriminate.
  destruct x1 as [im|]; simpl in Hx5; try discriminate.
  inversion Hx3; subst x3. inversion Hx5; subst x5.
  destruct (lookup st (newId rt)); simpl in Hx7; try discriminate.
  inversion H; subst; simpl. repeat split; assumption.
Qed.

Lemma create_201 (rt : runtime) (st : db) (req_body : object)
      (r : response) (st' : db) :
  create_product rt st req_body = Some (r, st') ->
  status r = 201%Z ->
  exists d, sent r = Saved d
    /\ save rt st (Products_new
                     (newProduct_fields (get req_body "name")
                        (get req_body "description") (get req_body "image")
                        (get req_body "author"))) = Done (d, st').
Proof.
  unfold create_product. intros H Hs.
  destruct (negb (truthy (get req_body "name")) || _ || _ || _).
  - inversion H; subst. discriminate.
  - destruct (save rt st _) as [[d st1]| |] eqn:E; simpl in H.
    + inversion H; subst. exists d. split; reflexivity.
    + inversion H; subst. discriminate.
    + discriminate.
Qed.

(** Every record that [POST /create-product] returns with a 201 carries
    the paths of the schema and no other field. *)
Lemma created_has_no_extra (rt : runtime) (st : db) (req_body : object)
      (d : product) (st' : db) :
  create_product rt st req_body = Some (respond 201 (Saved d), st') ->
  extra d = [].
Proof.
  intros H. apply create_201 in H as (d' & Hd & Hsave); [|reflexivity].
  simpl in Hd. inversion Hd; subst d'.
  now apply save_Done in Hsave.
Qed.

(** In particular it has no category, no price and no quantity. *)
Lemma created_has_no_defaults (rt : runtime) (st : db) (req_body : object)
      (d : product) (st' : db) :
  create_product rt st req_body = Some (respond 201 (Saved d), st') ->
  field d "category" = VUndefined
  /\ field d "price" = VUndefined
  /\ field d "quantity" = VUndefined.
Proof.
  intros H. apply created_has_no_extra in H.
  unfold field, toObject. rewrite H. repeat split.
Qed.

(** C1 (the code departs from the claim).  A create request with name,
    description, image and author and without category, price and quantity
    is answered 201, but the record returned has no category, no price and
    no quantity: [ProductSchema] declares none of the three, so the values
    the handler passes to [new Products] never reach the document. *)
Theorem create_returns_no_defaults :
  create_product CreateExample.rt CreateExample.st0 CreateExample.req_body
  = Some (respond 201 (Saved CreateExample.saved),
          {| products := [CreateExample.saved]; reviews := []; users := [] |})
  /\ field CreateExample.saved "category" = VUndefined
  /\ field CreateExample.saved "price" = VUndefined
  /\ field CreateExample.saved "quantity" = VUndefined
  /\ has_key (toObject CreateExample.saved) "category" = false
  /\ extra CreateExample.saved = [].
Proof. repeat split; vm_compute; reflexivity. Qed.

(** C9.  A create request whose body lacks name, description, image or
    author is answered 400 and leaves the store as it was: nothing is
    persisted. *)
Theorem create_missing_field (rt : runtime) (st : db) (req_body : object) :
  has_key req_body "name" = false
  \/ has_key req_body "description" = false
  \/ has_key req_body "image" = false
  \/ has_key req_body "author" = false ->
  create_product rt st req_body
  = Some (respond 400 (Message msg_required), st).
Proof.
  intros H. unfold create_product.
  destruct H as [H|[H|[H|H]]]; apply get_absent in H; rewrite H; simpl;
    rewrite ?orb_true_r; reflexivity.
Qed.

Lemma create_missing_field_witness :
  has_key [("name", VStr (js "Shoes")); ("description", VStr (js "d"));
           ("author", VStr (js "64b7f0c2a1b2c3d4e5f60718"))] "image" = false
  /\ create_product CreateExample.rt CreateExample.st0
       [("name", VStr (js "Shoes")); ("description", VStr (js "d"));
        ("author", VStr (js "64b7f0c2a1b2c3d4e5f60718"))]
     = Some (respond 400 (Message msg_required), CreateExample.st0).
Proof.
  split; [reflexivity|].
  apply create_missing_field. right. right. left. reflexivity.
Defined.

(** The handler reads name, description, image and author of the body and
    nothing else: its answer and the store it leaves do not depend on a
    category, a price or a quantity that the caller supplies. *)
Lemma create_reads_four_keys
      (rt : runtime) (st : db) (req_body : object)
      (category price quantity : value) :
  create_product rt st
    (set "category" category (set "price" price (set "quantity" quantity req_body)))
  = create_product rt st req_body.
Proof.
  unfold create_product.
  rewrite !get_set_other by discriminate.
  reflexivity.
Qed.

(** C10 (the code departs from the claim).  A create request that supplies
    the category "shoes", the price 99 and the quantity 5 is answered 201.
    The supplied values are ignored, but the document that [save] hands to
    the store does not carry the fixed default category, price 0 and
    quantity 1 either: the object literal passed to [new Products] has
    them, and [ProductSchema] declares none of the three, so the document
    built from it, saved and returned has no category, no price and no
    quantity. *)
Theorem create_hands_no_defaults_to_store :
  let newProduct :=
    Products_new
      (newProduct_fields
         (get CreateExample.req_body_supplied "name")
         (get CreateExample.req_body_supplied "description")
         (get CreateExample.req_body_supplied "image")
         (get CreateExample.req_body_supplied "author")) in
  let stored :=
    {| products := [CreateExample.saved]; reviews := []; users := [] |} in
  get CreateExample.req_body_supplied "category" = VStr (js "shoes")
  /\ get CreateExample.req_body_supplied "price" = VNum (Fin 99 0)
  /\ get CreateExample.req_body_supplied "quantity" = VNum (Fin 5 0)
  /\ create_product CreateExample.rt CreateExample.st0
       CreateExample.req_body_supplied
     = Some (respond 201 (Saved CreateExample.saved), stored)
  /\ map fst newProduct = ["name"; "description"; "image"; "author"]
  /\ save CreateExample.rt CreateExample.st0 newProduct
     = Done (CreateExample.saved, stored)
  /\ field CreateExample.saved "category" = VUndefined
  /\ field CreateExample.saved "price" = VUndefined
  /\ field CreateExample.saved "quantity" = VUndefined
  /\ field CreateExample.saved "category" <> VStr category_default
  /\ field CreateExample.saved "price" <> VNum (Fin 0 0)
  /\ field CreateExample.saved "quantity" <> VNum (Fin 1 0).
Proof.
  cbv zeta.
  repeat match goal with |- _ /\ _ => split end;
    try (vm_compute; reflexivity); vm_compute; discriminate.
Qed.

(** ** The image sequence *)

Lemma castStringArray_nonempty (u : bool) (v : value) (im : list jsstring) :
  castStringArray u v = Done (Some im) -> v <> VArr [] -> im <> [].
Proof.
  destruct v; simpl; intros H Hv; try discriminate.
  - destruct u; [discriminate|]. inversion H. discriminate.
  - apply bind_Done in H as (l & Hl & H). inversion H; subst.
    apply mapM_length in Hl. destruct xs; [congruence|].
    destruct im; [discriminate|discriminate].
Qed.

(** Create answers 400 to every falsy image: a missing one, null, the
    empty string. *)
Lemma create_falsy_image (rt : runtime) (st : db) (req_body : object) :
  truthy (get req_body "image") = false ->
  create_product rt st req_body
  = Some (respond 400 (Message msg_required), st).
Proof.
  intros H. unfold create_product. rewrite H. simpl.
  rewrite ?orb_true_r. reflexivity.
Qed.

Lemma create_step (rt : runtime) (st : db) (req_body : object)
      (r : response) (st' : db) :
  create_product rt st req_body = Some (r, st') ->
  st' = st
  \/ exists d,
      castStringArray false (get req_body "image") = Done (Some (image d))
      /\ products st' = products st ++ [d].
Proof.
  unfold create_product. intros H.
  destruct (negb (truthy (get req_body "name")) || _ || _ || _).
  - inversion H. now left.
  - destruct (save rt st _) as [[d st1]| |] eqn:E; simpl in H;
      inversion H; subst; [|now left].
    right. exists d. apply save_Done in E as (Him & _ & _ & _ & _ & ->).
    split; [exact Him|reflexivity].
Qed.

Lemma lookup_In (st : db) (i : oid) (d : product) :
  lookup st i = Some d -> In d (products st) /\ _id d = i.
Proof.
  unfold lookup. intros H. apply find_some in H as [H1 H2].
  split; [exact H1|]. now apply N.eqb_eq.
Qed.

Lemma set_path_Done {A B} (o : object) (k : string)
      (cast : value -> outcome (option A))
      (validate : option A -> outcome B) (r : option B) :
  set_path o k cast validate = Done r ->
  (get o k = VUndefined /\ r = None)
  \/ exists c b, cast (get o k) = Done c /\ validate c = Done b /\ r = Some b.
Proof.
  unfold set_path. intros H.
  destruct (get o k) eqn:E;
    try (left; split; [reflexivity|congruence]);
    right; invert_bind H; inversion H; subst; eauto.
Qed.

Lemma update_step (rt : runtime) (st : db) (id : jsstring) (req_body : object)
      (req_file : option jsstring) (r : response) (st' : db) :
  update_product rt st id req_body req_file = Some (r, st') ->
  (st' = st /\ status r <> 200%Z)
  \/ exists d d',
      In d (products st)
      /\ r = respond 200 (Updated msg_updated d')
      /\ _id d' = _id d
      /\ products st' = replace d' (products st)
      /\ match req_file with
         | Some file_path => image d' = [file_path]
         | None =>
             image d' = image d
             \/ castStringArray true (get req_body "image")
                = Done (Some (image d'))
         end.
Proof.
  unfold update_product, Products_findByIdAndUpdate.
  intros H.
  destruct (castParam id) as [i| |]; simpl in H; [| |discriminate].
  2:{ inversion H. left. split; [reflexivity|discriminate]. }
  match type of H with
  | context [castUpdate ?u] => destruct (castUpdate u) as [c| |] eqn:Ec
  end; simpl in H; try discriminate.
  2:{ inversion H. left. split; [reflexivity|discriminate]. }
  destruct (lookup st i) as [d|] eqn:El; simpl in H.
  2:{ inversion H. left. split; [reflexivity|discriminate]. }
  inversion H; subst; clear H.
  right. exists d, (apply_changes rt c d).
  apply lookup_In in El as [Hin _].
  repeat split; try assumption; try reflexivity.
  unfold castUpdate in Ec.
  destruct (existsb _ _); [discriminate|].
  invert_bind Ec. inversion Ec; subst c; clear Ec. simpl.
  apply set_path_Done in Hx1 as [[Hu ->]|(c & b & Hc & Hv & ->)]; simpl.
  - destruct req_file as [file_path|].
    + rewrite get_set_same in Hu. discriminate.
    + now left.
  - destruct c as [a|]; simpl in Hv; [|discriminate].
    inversion Hv; subst b; clear Hv.
    destruct req_file as [file_path|].
    + rewrite get_set_same in Hc. simpl in Hc. inversion Hc. reflexivity.
    + rewrite get_set_other in Hc by discriminate. now right.
Qed.

Lemma replace_Forall (P : product -> Prop) (d' : product) (l : list product) :
  Forall P l -> P d' -> Forall P (replace d' l).
Proof.
  intros Hl Hd. unfold replace. apply Forall_map.
  eapply Forall_impl; [|exact Hl]. intros x Hx.
  destruct (N.eqb (_id x) (_id d')); assumption.
Qed.

Lemma serve_keeps_images (st : db) (r : request) (rsp : response) (st' : db) :
  images_nonempty st ->
  body_image r <> VArr [] ->
  serve st r = Some (rsp, st') ->
  images_nonempty st'.
Proof.
  unfold images_nonempty. intros Hinv Hbody Hs.
  destruct r as [rt req_body|rt id req_body req_file]; simpl in *.
  - apply create_step in Hs as [->|(d & Hc & ->)]; [assumption|].
    apply Forall_app. split; [assumption|].
    constructor; [|constructor].
    eapply castStringArray_nonempty; eassumption.
  - apply update_step in Hs
      as [[-> _]|(d & d' & Hin & _ & _ & -> & Him)]; [assumption|].
    apply replace_Forall; [assumption|].
    destruct req_file as [file_path|].
    + rewrite Him. discriminate.
    + destruct Him as [Him|Him].
      * rewrite Him. rewrite Forall_forall in Hinv. now apply Hinv.
      * eapply castStringArray_nonempty; eassumption.
Qed.

Lemma lookup_replace (d d' : product) (l : list product) (rv us : _) :
  In d l -> _id d' = _id d ->
  lookup {| products := replace d' l; reviews := rv; users := us |} (_id d)
  = Some d'.
Proof.
  unfold lookup. simpl. intros Hin Hid.
  induction l as [|x l IH]; [destruct Hin|]. simpl.
  destruct (N.eqb (_id x) (_id d')) eqn:E.
  - rewrite Hid, N.eqb_refl. reflexivity.
  - rewrite Hid in E.
    destruct Hin as [->|Hin]; [now rewrite N.eqb_refl in E|].
    rewrite E. now apply IH.
Qed.

(** C6 (as the code has it).  Along every sequence of create and update
    requests none of which carries an empty array as its image, every
    stored product keeps a non-empty image sequence; create answers 400,
    changing nothing, to a missing or otherwise falsy image; and an update
    that comes with an uploaded file installs exactly the one-element
    sequence made of that file's path. *)
Theorem image_sequence_kept :
  (forall (st : db) (rs : list request) (st' : db),
      images_nonempty st ->
      Forall (fun r => body_image r <> VArr []) rs ->
      run st rs = Some st' ->
      images_nonempty st')
  /\ (forall (rt : runtime) (st : db) (req_body : object),
         truthy (get req_body "image") = false ->
         create_product rt st req_body
         = Some (respond 400 (Message msg_required), st))
  /\ (forall (rt : runtime) (st : db) (id : jsstring) (req_body : object)
             (file_path : jsstring) (r : response) (st' : db),
         update_product rt st id req_body (Some file_path) = Some (r, st') ->
         status r = 200%Z ->
         exists d, sent r = Updated msg_updated d
                   /\ image d = [file_path]
                   /\ lookup st' (_id d) = Some d).
Proof.
  split; [|split].
  - intros st rs. revert st.
    induction rs as [|r rs IH]; simpl; intros st st' Hinv Hok Hrun.
    + inversion Hrun; subst. assumption.
    + inversion Hok as [|? ? Hr Hrs]; subst.
      destruct (serve st r) as [[rsp st1]|] eqn:Es; [|discriminate].
      eapply IH; [|exact Hrs|exact Hrun].
      eapply serve_keeps_images; eassumption.
  - exact create_falsy_image.
  - intros rt st id req_body file_path r st' Hu Hs.
    apply update_step in Hu
      as [[_ Hn]|(d & d' & Hin & -> & Hid & Hp & Him)]; [contradiction|].
    exists d'. simpl. repeat split; [exact Him|].
    destruct st' as [ps rv us]. simpl in Hp. subst ps.
    rewrite Hid. now apply lookup_replace.
Qed.

Lemma image_sequence_kept_witness :
  images_nonempty CreateExample.st0
  /\ Forall (fun r => body_image r <> VArr [])
       [ Create CreateExample.rt CreateExample.req_body;
         Update ImageExample.later ImageExample.id1
           [("name", VStr (js "Trail shoes"))] (Some ImageExample.upload) ]
  /\ (exists st',
         run CreateExample.st0
           [ Create CreateExample.rt CreateExample.req_body;
             Update ImageExample.later ImageExample.id1
               [("name", VStr (js "Trail shoes"))] (Some ImageExample.upload) ]
         = Some st'
         /\ images_nonempty st'
         /\ map image (products st') = [[ImageExample.upload]])
  /\ truthy (get [("name", VStr (js "Shoes")); ("image", VStr [])] "image") = false
  /\ create_product CreateExample.rt CreateExample.st0
       [("name", VStr (js "Shoes")); ("image", VStr [])]
     = Some (respond 400 (Message msg_required), CreateExample.st0).
Proof.
  assert (H0 : images_nonempty CreateExample.st0) by constructor.
  assert (Hok : Forall (fun r => body_image r <> VArr [])
       [ Create CreateExample.rt CreateExample.req_body;
         Update ImageExample.later ImageExample.id1
           [("name", VStr (js "Trail shoes"))] (Some ImageExample.upload) ])
    by (repeat constructor; discriminate).
  split; [exact H0|]. split; [exact Hok|]. split.
  - eexists. split; [vm_compute; reflexivity|]. split.
    + eapply (proj1 image_sequence_kept); [exact H0|exact Hok|].
      vm_compute. reflexivity.
    + reflexivity.
  - split; [reflexivity|].
    apply (proj1 (proj2 image_sequence_kept)). reflexivity.
Defined.

(** The claim of C6 as it is written fails: one create request whose image
    is the empty array passes the handler's guard (an array is truthy) and
    the schema's [required] check (any array will do), and leaves a stored
    product with an empty image sequence. *)
Lemma image_sequence_can_be_empty :
  ~ (forall (rs : list request) (st' : db),
        run CreateExample.st0 rs = Some st' -> images_nonempty st').
Proof.
  intros H.
  specialize (H [Create CreateExample.rt ImageExample.empty_image]
                {| products := [ImageExample.stored]; reviews := [];
                   users := [] |}).
  assert (Hrun : run CreateExample.st0
                   [Create CreateExample.rt ImageExample.empty_image]
                 = Some {| products := [ImageExample.stored]; reviews := [];
                           users := [] |})
    by (vm_compute; reflexivity).
  apply H in Hrun. inversion Hrun as [|? ? Hd _]; subst.
  apply Hd. reflexivity.
Qed.

(** ** Deleting a product *)

Lemma remove_first_In (i : oid) (l : list product) (d : product) :
  NoDup (map _id l) ->
  In d (remove_first i l) <-> In d l /\ _id d <> i.
Proof.
  induction l as [|x l IH]; simpl; intros Hnd.
  - tauto.
  - inversion Hnd as [|? ? Hx Hl]; subst.
    destruct (N.eqb (_id x) i) eqn:E.
    + apply N.eqb_eq in E. split.
      * intros Hin. split; [now right|].
        intros Hd. apply Hx. rewrite E, <- Hd. now apply in_map.
      * intros [[->|Hin] Hne]; [contradiction|assumption].
    + apply N.eqb_neq in E. simpl. rewrite (IH Hl). split.
      * intros [->|[Hin Hne]]; [split; [now left|assumption]|].
        split; [now right|assumption].
      * intros [[->|Hin] Hne]; [now left|now right].
Qed.

Lemma lookup_None (st : db) (i : oid) :
  lookup st i = None <-> forall d, In d (products st) -> _id d <> i.
Proof.
  unfold lookup. split.
  - intros H d Hin Hid.
    apply (find_none _ _ H) in Hin. apply N.eqb_neq in Hin. contradiction.
  - intros H. destruct (find _ _) as [d|] eqn:E; [|reflexivity].
    apply find_some in E as [Hin Hid]. apply N.eqb_eq in Hid.
    now apply H in Hin.
Qed.

(** C7 (as the code has it).  Deleting by an ObjectId that resolves to no
    product answers 404 and leaves products and reviews as they were.  Deleting by an id that
    resolves answers 200; the product is taken out of its collection, and
    then so is every review whose [productId] is that id: afterwards the id
    resolves to nothing and a review query for it finds nothing, while the
    other products and reviews stay. *)
Theorem delete_cascades (st : db) (id : jsstring) (i : oid) :
  parseObjectId id = Some i ->
  ids_unique st ->
  (lookup st i = None ->
   delete_product st id
   = Some (respond 404 (Message "Product not found"), st))
  /\ (forall d, lookup st i = Some d ->
        exists st',
          delete_product st id
          = Some (respond 200 (Message "Product deleted successfully"), st')
          /\ products st' = remove_first i (products st)
          /\ reviews st'
             = filter (fun r => negb (N.eqb (productId r) i)) (reviews st)
          /\ users st' = users st
          /\ lookup st' i = None
          /\ (forall d', In d' (products st')
                         <-> In d' (products st) /\ _id d' <> i)
          /\ (forall r, In r (reviews st')
                        <-> In r (reviews st) /\ productId r <> i)
          /\ forall fields, Reviews_find st' id fields = Done []).
Proof.
  intros Hid Hnd.
  unfold delete_product, Products_findByIdAndDelete, Reviews_deleteMany,
    Reviews_find.
  erewrite castParam_Some by eassumption. simpl. split.
  - intros ->. reflexivity.
  - intros d ->. simpl. eexists. split; [reflexivity|]. simpl.
    assert (Hprod : forall d', In d' (remove_first i (products st))
                               <-> In d' (products st) /\ _id d' <> i)
      by (intros d'; now apply remove_first_In).
    assert (Hrev : forall r,
               In r (filter (fun r => negb (N.eqb (productId r) i)) (reviews st))
               <-> In r (reviews st) /\ productId r <> i).
    { intros r. rewrite filter_In, negb_true_iff, N.eqb_neq. reflexivity. }
    split; [reflexivity|]. split; [reflexivity|]. split; [reflexivity|].
    split; [|split; [exact Hprod|split; [exact Hrev|]]].
    + apply lookup_None. simpl. intros d' Hin. now apply Hprod in Hin.
    + intros fields. f_equal.
      match goal with
      | |- map _ ?l = [] => assert (Hl : l = []); [|now rewrite Hl]
      end.
      destruct (filter _ (filter _ _)) as [|r l] eqn:E; [reflexivity|].
      assert (Hin : In r (r :: l)) by now left.
      rewrite <- E in Hin. apply filter_In in Hin as [Hin Hi].
      apply Hrev in Hin as [_ Hne]. apply N.eqb_eq in Hi. contradiction.
Qed.

Lemma delete_cascades_witness :
  parseObjectId Catalogue.id1 = Some 1%N
  /\ ids_unique Catalogue.st
  /\ lookup Catalogue.st 1%N = Some Catalogue.red_shoes
  /\ exists st',
      delete_product Catalogue.st Catalogue.id1
      = Some (respond 200 (Message "Product deleted successfully"), st')
      /\ products st' = [Catalogue.blue_shoes; Catalogue.hat; Catalogue.lamp]
      /\ reviews st' = [Catalogue.review2]
      /\ lookup st' 1%N = None.
Proof.
  assert (Hid : parseObjectId Catalogue.id1 = Some 1%N) by reflexivity.
  assert (Hnd : ids_unique Catalogue.st).
  { unfold ids_unique. simpl. repeat constructor; simpl; intuition discriminate. }
  split; [exact Hid|]. split; [exact Hnd|]. split; [reflexivity|].
  destruct (proj2 (@delete_cascades Catalogue.st Catalogue.id1 1%N Hid Hnd)
              Catalogue.red_shoes eq_refl)
    as (st' & Hd & Hp & Hr & _ & Hl & _).
  exists st'. repeat split; assumption.
Defined.

(** The claim of C7 as it is written fails: it speaks of every delete
    request, and a parameter that spells no ObjectId, such as "abc", names
    no product of any store, yet is answered 500 and not 404: the cast of
    the parameter fails inside [findByIdAndDelete] and the handler's
    [catch] answers. *)
Lemma delete_of_malformed_id :
  ~ (forall (st : db) (id : jsstring),
        ids_unique st ->
        names_no_product st id ->
        exists r, delete_product st id = Some (r, st) /\ status r = 404%Z).
Proof.
  intros H.
  destruct (H Catalogue.st (js "abc")) as (r & Hr & Hs).
  - unfold ids_unique. simpl.
    repeat constructor; simpl; intuition discriminate.
  - intros d _. discriminate.
  - vm_compute in Hr. inversion Hr; subst r. discriminate.
Qed.

(** *** Unique ids

    The hypothesis of [delete_cascades] on the ids holds of every store
    that the handlers build from a store with unique ids. *)

Lemma create_cases (rt : runtime) (st : db) (req_body : object)
      (r : response) (st' : db) :
  create_product rt st req_body = Some (r, st') ->
  st' = st
  \/ exists d,
      save rt st (Products_new
                    (newProduct_fields (get req_body "name")
                       (get req_body "description") (get req_body "image")
                       (get req_body "author"))) = Done (d, st').
Proof.
  unfold create_product. intros H.
  destruct (negb (truthy (get req_body "name")) || _ || _ || _).
  - inversion H. now left.
  - destruct (save rt st _) as [[d st1]| |] eqn:E; simpl in H;
      inversion H; subst; [|now left].
    right. now exists d.
Qed.

Lemma replace_ids (d' : product) (l : list product) :
  map _id (replace d' l) = map _id l.
Proof.
  unfold replace. rewrite map_map. apply map_ext_in. intros x _.
  destruct (N.eqb (_id x) (_id d')) eqn:E; [|reflexivity].
  apply N.eqb_eq in E. now rewrite E.
Qed.

Lemma remove_first_NoDup (i : oid) (l : list product) :
  NoDup (map _id l) -> NoDup (map _id (remove_first i l)).
Proof.
  induction l as [|x l IH]; simpl; intros H; [constructor|].
  inversion H as [|? ? Hx Hl]; subst.
  destruct (N.eqb (_id x) i); [exact Hl|].
  simpl. constructor; [|now apply IH].
  intros Hin. apply Hx.
  apply in_map_iff in Hin as (y & Hy & Hin).
  apply remove_first_In in Hin as [Hin _]; [|exact Hl].
  rewrite <- Hy. now apply in_map.
Qed.

Lemma serve_keeps_ids (st : db) (r : request) (rsp : response) (st' : db) :
  ids_unique st -> serve st r = Some (rsp, st') -> ids_unique st'.
Proof.
  unfold ids_unique. intros Hnd Hs.
  destruct r as [rt req_body|rt id req_body req_file]; simpl in Hs.
  - apply create_cases in Hs as [->|(d & Hsave)]; [assumption|].
    apply save_Done in Hsave as (_ & _ & Hid & _ & Hfresh & ->). simpl.
    rewrite map_app. simpl.
    eapply Permutation_NoDup; [apply Permutation_cons_append|].
    constructor; [|assumption].
    intros Hin. apply in_map_iff in Hin as (y & Hy & Hin).
    rewrite lookup_None in Hfresh. apply (Hfresh y Hin). congruence.
  - apply update_step in Hs as [[-> _]|(d & d' & _ & _ & _ & Hp & _)];
      [assumption|].
    now rewrite Hp, replace_ids.
Qed.

Lemma delete_keeps_ids (st : db) (id : jsstring) (rsp : response) (st' : db) :
  ids_unique st -> delete_product st id = Some (rsp, st') -> ids_unique st'.
Proof.
  unfold ids_unique, delete_product, Products_findByIdAndDelete,
    Reviews_deleteMany.
  intros Hnd H.
  destruct (castParam id) as [i| |]; simpl in H; [| |discriminate].
  - destruct (lookup st i); simpl in H; inversion H; subst; simpl;
      [now apply remove_first_NoDup|assumption].
  - inversion H; subst. assumption.
Qed.

(** ** Fetching one product *)

Lemma select_username_email (u : user) :
  select ["username"; "email"] u
  = [ ("_id", VObjectId (user_id u));
      ("username", VStr (username u));
      ("email", VStr (email u)) ].
Proof. reflexivity. Qed.

(** What [populate] puts in place of a reference to a user, for the
    fields username and email in either order. *)
Lemma find_user_expanded (st : db) (i : oid) :
  expanded_user st i
    (option_map (select ["username"; "email"]) (find_user st i))
  /\ expanded_user st i
       (option_map (select ["email"; "username"]) (find_user st i)).
Proof.
  unfold expanded_user, find_user.
  destruct (find (fun u => N.eqb (user_id u) i) (users st)) as [u|] eqn:E.
  - apply find_some in E as [Hin Hi]. apply N.eqb_eq in Hi.
    split; left; exists u; (split; [exact Hin|]); (split; [exact Hi|]);
      simpl; unfold select; simpl; now rewrite Hi.
  - assert (Hno : forall u, In u (users st) -> user_id u <> i).
    { intros u Hin. apply (find_none _ _ E) in Hin. now apply N.eqb_neq. }
    split; right; (split; [exact Hno|reflexivity]).
Qed.

(** C8 (as the code has it).  Fetching by an ObjectId that resolves to no
    product answers 404.  Fetching by an id that resolves answers 200 with
    the product, its author expanded, and with the reviews whose
    [productId] is that id, all of them and no other, in the collection's
    order; each review's user reference is replaced by the id, the
    username and the email of the user of the collection with that id, or
    by null when the collection has no such user. *)
Theorem get_product_with_reviews (st : db) (id : jsstring) (i : oid) :
  parseObjectId id = Some i ->
  (lookup st i = None ->
   get_product st id = Some (respond 404 (Message "Product not found"), st))
  /\ (forall d, lookup st i = Some d ->
        exists p found,
          get_product st id = Some (respond 200 (Single p found), st)
          /\ doc p = d
          /\ _id d = i
          /\ expanded_user st (author d) (ref p)
          /\ map (@doc review) found
             = filter (fun r => N.eqb (productId r) i) (reviews st)
          /\ (forall r, In r (map (@doc review) found)
                        <-> In r (reviews st) /\ productId r = i)
          /\ Forall (fun pr => expanded_user st (userId (doc pr)) (ref pr))
                    found).
Proof.
  intros Hid. unfold get_product, Products_findById, Reviews_find.
  erewrite castParam_Some by eassumption. simpl. split.
  - intros ->. reflexivity.
  - intros d Hd. rewrite Hd. simpl. eexists. eexists.
    split; [reflexivity|].
    split; [reflexivity|].
    split; [now apply lookup_In in Hd|].
    split; [apply (proj2 (find_user_expanded st (author d)))|].
    split; [|split].
    + rewrite map_map. simpl. apply map_id.
    + intros r. rewrite map_map. simpl. rewrite map_id, filter_In, N.eqb_eq.
      reflexivity.
    + apply Forall_map. apply Forall_forall. intros r _. simpl.
      apply (proj1 (find_user_expanded st (userId r))).
Qed.

(** A parameter that is not an ObjectId makes the lookup reject, and the
    handler's [catch] answers 500. *)
Lemma get_product_not_an_id (st : db) :
  get_product st (js "abc")
  = Some (respond 500 (Message "Failed to fetch the product"), st).
Proof. reflexivity. Qed.

(** The first product of the catalogue has two reviews: the one by bob
    comes back with bob's id, username and email, the one by a user that
    the collection does not hold comes back with null; the product's
    author is bob, expanded likewise. *)
Lemma get_product_with_reviews_witness :
  parseObjectId Catalogue.id1 = Some 1%N
  /\ lookup Catalogue.st 1%N = Some Catalogue.red_shoes
  /\ exists p found,
      get_product Catalogue.st Catalogue.id1
      = Some (respond 200 (Single p found), Catalogue.st)
      /\ p = {| doc := Catalogue.red_shoes; ref := Some Catalogue.bob_ref |}
      /\ found
         = [ {| doc := Catalogue.review1; ref := Some Catalogue.bob_ref |};
             {| doc := Catalogue.review3; ref := None |} ]
      /\ Forall (fun pr => expanded_user Catalogue.st (userId (doc pr)) (ref pr))
                found.
Proof.
  assert (Hid : parseObjectId Catalogue.id1 = Some 1%N) by reflexivity.
  split; [exact Hid|]. split; [reflexivity|].
  destruct (proj2 (get_product_with_reviews Catalogue.st Catalogue.id1 Hid)
              Catalogue.red_shoes eq_refl)
    as (p & found & Hg & _ & _ & _ & _ & _ & Hx).
  exists p, found. split; [exact Hg|].
  assert (Hc : get_product Catalogue.st Catalogue.id1
               = Some (respond 200
                         (Single
                            {| doc := Catalogue.red_shoes;
                               ref := Some Catalogue.bob_ref |}
                            [ {| doc := Catalogue.review1;
                                 ref := Some Catalogue.bob_ref |};
                              {| doc := Catalogue.review3; ref := None |} ]),
                       Catalogue.st))
    by (vm_compute; reflexivity).
  rewrite Hc in Hg. inversion Hg; subst p found.
  split; [reflexivity|]. split; [reflexivity|]. exact Hx.
Defined.

(** The claim of C8 as it is written fails: a parameter that spells no
    ObjectId, such as "abc", names no product of any store, yet is
    answered 500 and not 404: the cast of the parameter fails inside
    [findById] and the handler's [catch] answers. *)
Lemma get_product_of_malformed_id :
  ~ (forall (st : db) (id : jsstring),
        names_no_product st id ->
        exists r, get_product st id = Some (r, st) /\ status r = 404%Z).
Proof.
  intros H.
  destruct (H Catalogue.st (js "abc")) as (r & Hr & Hs).
  - intros d _. discriminate.
  - rewrite get_product_not_an_id in Hr. inversion Hr; subst r. discriminate.
Qed.

(** ** Listing products *)

Lemma insert_desc_perm (d : product) (l : list product) :
  Permutation (Query.insert_desc d l) (d :: l).
Proof.
  induction l as [|x l IH]; simpl.
  - apply Permutation_refl.
  - destruct (Z.leb (createdAt x) (createdAt d)).
    + apply Permutation_refl.
    + eapply perm_trans; [apply perm_skip, IH|apply perm_swap].
Qed.

Lemma sort_desc_perm (l : list product) :
  Permutation (Query.sort_desc l) l.
Proof.
  induction l as [|x l IH]; simpl.
  - constructor.
  - eapply perm_trans; [apply insert_desc_perm|now apply perm_skip].
Qed.

Lemma insert_desc_sorted (d : product) (l : list product) :
  StronglySorted newest_first l ->
  StronglySorted newest_first (Query.insert_desc d l).
Proof.
  induction 1 as [|x l Hl IH Hx]; simpl.
  - repeat constructor.
  - destruct (Z.leb (createdAt x) (createdAt d)) eqn:E.
    + apply Z.leb_le in E. constructor.
      * now constructor.
      * constructor; [exact E|].
        eapply Forall_impl; [|exact Hx].
        unfold newest_first. intros y Hy. lia.
    + apply Z.leb_gt in E. constructor; [exact IH|].
      eapply Permutation_Forall.
      * apply Permutation_sym, insert_desc_perm.
      * constructor; [unfold newest_first; lia|exact Hx].
Qed.

Lemma sort_desc_sorted (l : list product) :
  StronglySorted newest_first (Query.sort_desc l).
Proof.
  induction l as [|x l IH]; simpl.
  - constructor.
  - now apply insert_desc_sorted.
Qed.

(** [Math.ceil(a / b)] is the least integer [k] with [a <= k * b]. *)
Lemma Math_ceil_quotient (a b : Z) :
  (0 < b)%Z ->
  let k := Math_ceil (inject_Z a / inject_Z b) in
  ((k - 1) * b < a <= k * b)%Z.
Proof.
  intros Hb. cbv zeta.
  destruct b as [|p|p]; try lia.
  unfold Math_ceil, Qceiling, Qfloor, Qdiv, Qmult, Qinv, Qopp, inject_Z.
  simpl Qnum. simpl Qden. cbv iota beta.
  rewrite Z.mul_1_r.
  pose proof (Z.div_mod (- a) (Z.pos p) ltac:(lia)) as Hdm.
  pose proof (Z.mod_pos_bound (- a) (Z.pos p) ltac:(lia)) as Hmod.
  nia.
Qed.

Lemma firstn_skipn_past {A} (n m : nat) (l : list A) :
  (List.length l <= m)%nat -> firstn n (skipn m l) = [].
Proof. intros H. rewrite skipn_all2 by exact H. now destruct n. Qed.

(** The answer of the listing for a page and a limit from 1 up. *)
Lemma get_products_200 (st : db) (q : params) (page limit : Z) :
  parseInt_default (param q "page") 1 = Some page ->
  parseInt_default (param q "limit") 10 = Some limit ->
  (1 <= page)%Z -> (1 <= limit)%Z ->
  get_products st q
  = Some (respond 200
            (Page
               (map (populate st author ["email"])
                  (firstn (Z.to_nat limit)
                     (skipn (Z.to_nat ((page - 1) * limit))
                        (Query.sort_desc
                           (filter (matches (build_filter q)) (products st))))))
               (Math_ceil
                  (inject_Z (Products_countDocuments st (build_filter q))
                   / inject_Z limit))
               (Products_countDocuments st (build_filter q))),
          st).
Proof.
  intros Hp Hl H1 H2. unfold get_products. rewrite Hp, Hl.
  apply Z.leb_le in H1, H2. rewrite H1, H2. reflexivity.
Qed.

(** C4.  For a page and a limit that read as integers from 1 up, the
    listing answers 200 with: the number of stored products that match the
    filter; the number of pages, which is that count divided by the limit
    and rounded up; and the products obtained by ordering the matching
    ones newest first, skipping (page - 1) * limit of them and keeping at
    most limit, each with its author reduced to the email.  A page past
    the end gives the empty sequence with the same two totals. *)
Theorem get_products_page (st : db) (q : params) (page limit : Z) :
  parseInt_default (param q "page") 1 = Some page ->
  parseInt_default (param q "limit") 10 = Some limit ->
  (1 <= page)%Z -> (1 <= limit)%Z ->
  let found := filter (matches (build_filter q)) (products st) in
  let sorted := Query.sort_desc found in
  exists products totalPages totalProducts,
    get_products st q
    = Some (respond 200 (Page products totalPages totalProducts), st)
    /\ totalProducts = Z.of_nat (List.length found)
    /\ ((totalPages - 1) * limit < totalProducts <= totalPages * limit)%Z
    /\ Permutation sorted found
    /\ StronglySorted newest_first sorted
    /\ map (@doc product) products
       = firstn (Z.to_nat limit) (skipn (Z.to_nat ((page - 1) * limit)) sorted)
    /\ Forall (fun pd =>
                 ref pd = option_map (select ["email"])
                            (find_user st (author (doc pd)))) products
    /\ ((totalProducts <= (page - 1) * limit)%Z -> products = []).
Proof.
  intros Hp Hl H1 H2 found sorted.
  do 3 eexists. split; [apply get_products_200; eassumption|].
  split; [reflexivity|].
  split; [apply Math_ceil_quotient; lia|].
  split; [apply sort_desc_perm|].
  split; [apply sort_desc_sorted|].
  split; [rewrite map_map; simpl; apply map_id|].
  split.
  - apply Forall_map, Forall_forall. intros d _. reflexivity.
  - intros Hpast. unfold Products_countDocuments in Hpast.
    fold found in Hpast. fold found. fold sorted.
    rewrite firstn_skipn_past; [reflexivity|].
    unfold sorted. rewrite (Permutation_length (sort_desc_perm found)). lia.
Qed.

Lemma get_products_page_witness :
  parseInt_default (param [("page", js "3"); ("limit", js "2")] "page") 1
  = Some 3%Z
  /\ parseInt_default (param [("page", js "3"); ("limit", js "2")] "limit") 10
     = Some 2%Z
  /\ exists products,
      get_products Catalogue.st [("page", js "3"); ("limit", js "2")]
      = Some (respond 200 (Page products 2 4), Catalogue.st)
      /\ products = []
      /\ exists products',
          get_products Catalogue.st [("page", js "2"); ("limit", js "3")]
          = Some (respond 200 (Page products' 2 4), Catalogue.st)
          /\ map (@doc product) products' = [Catalogue.red_shoes].
Proof.
  split; [reflexivity|]. split; [reflexivity|].
  destruct (get_products_page Catalogue.st [("page", js "3"); ("limit", js "2")]
              (page := 3) (limit := 2) eq_refl eq_refl ltac:(lia) ltac:(lia))
    as (products & totalPages & totalProducts & Hg & Ht & _ & _ & _ & _ & _ & He).
  exists products.
  assert (products = []) as -> by (apply He; rewrite Ht; vm_compute; discriminate).
  split; [vm_compute; reflexivity|]. split; [reflexivity|].
  eexists. split; vm_compute; reflexivity.
Defined.

(** ** The price range of the listing *)

Lemma parseFloat_empty : parseFloat [] = NaN.
Proof. reflexivity. Qed.

Lemma given_Some (v : option jsstring) :
  given v = true <-> exists c s, v = Some (c :: s).
Proof.
  destruct v as [[|c s]|]; simpl; split; try discriminate; eauto;
    intros (c' & s' & H); discriminate.
Qed.

(** C5 (as the code has it).  The listing's filter gets a price range
    exactly when minPrice and maxPrice are both present and neither reads
    as NaN under [parseFloat]; the bounds are the two numbers read, which
    may be infinite.  When one of the two is absent there is no price
    range: the filter is the one built from category and color alone, and
    the listing still answers 200. *)
Theorem price_range_applied (q : params) :
  (forall lo hi,
      where_price (build_filter q) = Some (lo, hi)
      <-> exists a b,
          param q "minPrice" = Some a /\ param q "maxPrice" = Some b
          /\ parseFloat a = lo /\ parseFloat b = hi
          /\ isNaN lo = false /\ isNaN hi = false)
  /\ (param q "minPrice" = None \/ param q "maxPrice" = None ->
      where_price (build_filter q) = None
      /\ build_filter q = without_price (build_filter q)
      /\ forall st page limit,
          parseInt_default (param q "page") 1 = Some page ->
          parseInt_default (param q "limit") 10 = Some limit ->
          (1 <= page)%Z -> (1 <= limit)%Z ->
          exists products totalPages,
            get_products st q
            = Some (respond 200
                      (Page products totalPages
                         (Products_countDocuments st
                            (without_price (build_filter q)))), st)).
Proof.
  split.
  - intros lo hi. unfold build_filter. simpl. split.
    + destruct (given (param q "minPrice")) eqn:Ea; simpl; [|discriminate].
      destruct (given (param q "maxPrice")) eqn:Eb; simpl; [|discriminate].
      apply given_Some in Ea as (c & s & Ea).
      apply given_Some in Eb as (c' & s' & Eb).
      rewrite Ea, Eb. simpl text.
      destruct (isNaN (parseFloat (c :: s))) eqn:Na; simpl; [discriminate|].
      destruct (isNaN (parseFloat (c' :: s'))) eqn:Nb; simpl; [discriminate|].
      intros H. inversion H; subst.
      exists (c :: s), (c' :: s'). repeat split; assumption.
    + intros (a & b & Ea & Eb & <- & <- & Na & Nb).
      rewrite Ea, Eb.
      destruct a as [|c s]; [discriminate|].
      destruct b as [|c' s']; [discriminate|].
      simpl given. simpl text. simpl andb. rewrite Na, Nb. reflexivity.
  - intros Habs.
    assert (Hnone : where_price (build_filter q) = None).
    { unfold build_filter. simpl.
      destruct Habs as [-> | ->]; simpl; [reflexivity|].
      now rewrite andb_false_r. }
    assert (Heq : build_filter q = without_price (build_filter q)).
    { revert Hnone. destruct (build_filter q) as [c co pr]. simpl.
      intros ->. reflexivity. }
    split; [exact Hnone|]. split; [exact Heq|].
    intros st page limit Hp Hl H1 H2.
    do 2 eexists. rewrite <- Heq. apply get_products_200; eassumption.
Qed.

Lemma price_range_applied_witness :
  param [("minPrice", js "10")] "maxPrice" = None
  /\ where_price (build_filter [("minPrice", js "10")]) = None
  /\ exists products totalPages,
      get_products Catalogue.st [("minPrice", js "10")]
      = Some (respond 200 (Page products totalPages 4), Catalogue.st).
Proof.
  split; [reflexivity|].
  destruct (proj2 (price_range_applied [("minPrice", js "10")])
              (or_intror eq_refl)) as (Hn & _ & Hg).
  split; [exact Hn|].
  destruct (Hg Catalogue.st 1%Z 10%Z eq_refl eq_refl ltac:(lia) ltac:(lia))
    as (products & totalPages & Hget).
  exists products, totalPages. exact Hget.
Defined.

(** The claim of C5 as it is written fails: with minPrice "-Infinity" and
    maxPrice "Infinity" both parameters are present, neither reads as a
    finite number, and the price range is applied all the same
    ([isNaN(Infinity)] is false). *)
Lemma price_range_with_infinite_bounds :
  ~ (forall q : params, where_price (build_filter q) <> None <-> both_finite q).
Proof.
  intros H.
  specialize (H [("minPrice", js "-Infinity"); ("maxPrice", js "Infinity")]).
  destruct H as [H _].
  assert (Happlied :
            where_price
              (build_filter
                 [("minPrice", js "-Infinity"); ("maxPrice", js "Infinity")])
            <> None) by (vm_compute; discriminate).
  apply H in Happlied as (a & b & Ha & _ & Hfa & _).
  vm_compute in Ha. inversion Ha; subst a.
  vm_compute in Hfa. discriminate.
Qed.

(** ** Related products *)

(** *** Splitting and joining *)

Lemma split_acc_word (sep : jschar) (w cur : jsstring) :
  forallb (fun c => negb (N.eqb c sep)) w = true ->
  split_acc sep cur w = [rev cur ++ w].
Proof.
  revert cur. induction w as [|c w IH]; simpl; intros cur H.
  - now rewrite app_nil_r.
  - apply andb_true_iff in H as [Hc Hw]. apply negb_true_iff in Hc.
    rewrite Hc, IH by exact Hw. simpl. now rewrite <- app_assoc.
Qed.

Lemma split_acc_sep (sep : jschar) (w cur rest : jsstring) :
  forallb (fun c => negb (N.eqb c sep)) w = true ->
  split_acc sep cur (w ++ sep :: rest)
  = (rev cur ++ w) :: split_acc sep [] rest.
Proof.
  revert cur. induction w as [|c w IH]; simpl; intros cur H.
  - now rewrite N.eqb_refl, app_nil_r.
  - apply andb_true_iff in H as [Hc Hw]. apply negb_true_iff in Hc.
    rewrite Hc, IH by exact Hw. simpl. now rewrite <- app_assoc.
Qed.

Lemma split_join (sep : jschar) (ws : list jsstring) :
  ws <> [] ->
  Forall (fun w => forallb (fun c => negb (N.eqb c sep)) w = true) ws ->
  split sep (join sep ws) = ws.
Proof.
  unfold split. induction ws as [|w ws IH]; [congruence|].
  intros _ Hall. inversion Hall as [|? ? Hw Hws]; subst.
  destruct ws as [|w' ws].
  - simpl. now rewrite split_acc_word.
  - change (join sep (w :: w' :: ws)) with (w ++ sep :: join sep (w' :: ws)).
    rewrite split_acc_sep by exact Hw. simpl rev. simpl app at 1.
    f_equal. apply IH; [discriminate|exact Hws].
Qed.

Lemma forallb_join (P : jschar -> bool) (sep : jschar) (ws : list jsstring) :
  P sep = true ->
  Forall (fun w => forallb P w = true) ws ->
  forallb P (join sep ws) = true.
Proof.
  intros Hsep. induction 1 as [|w ws Hw Hws IH]; [reflexivity|].
  destruct ws as [|w' ws]; [exact Hw|].
  change (join sep (w :: w' :: ws)) with (w ++ sep :: join sep (w' :: ws)).
  rewrite forallb_app. cbn [forallb]. rewrite Hw, Hsep. exact IH.
Qed.

(** *** Matching *)

Lemma prefix_ci_spec (p s : jsstring) :
  prefix_ci p s = true
  <-> exists mid post, s = mid ++ post /\ map canonicalize mid = map canonicalize p.
Proof.
  revert s. induction p as [|c p IH]; intros s; simpl.
  - split; [intros _; now exists [], s|reflexivity].
  - destruct s as [|d s].
    + split; [discriminate|].
      intros (mid & post & Hs & Hm). destruct mid; discriminate.
    + rewrite andb_true_iff, N.eqb_eq, IH. split.
      * intros [Hc (mid & post & -> & Hm)].
        exists (d :: mid), post. simpl. split; [reflexivity|].
        now rewrite Hm, Hc.
      * intros (mid & post & Hs & Hm).
        destruct mid as [|d' mid]; [discriminate|].
        simpl in Hs, Hm. inversion Hs; subst. inversion Hm.
        split; [congruence|]. now exists mid, post.
Qed.

Lemma occurs_ci_spec (w s : jsstring) :
  occurs_ci w s = true <-> contains_ci w s.
Proof.
  unfold contains_ci. induction s as [|d s IH]; simpl.
  - rewrite orb_false_r, prefix_ci_spec. split.
    + intros (mid & post & Hs & Hm). now exists [], mid, post.
    + intros (pre & mid & post & Hs & Hm).
      destruct pre; [|discriminate]. now exists mid, post.
  - rewrite orb_true_iff, prefix_ci_spec, IH. split.
    + intros [(mid & post & Hs & Hm)|(pre & mid & post & Hs & Hm)].
      * now exists [], mid, post.
      * exists (d :: pre), mid, post. simpl. now rewrite Hs.
    + intros (pre & mid & post & Hs & Hm). destruct pre as [|d' pre].
      * left. now exists mid, post.
      * right. simpl in Hs. inversion Hs; subst. now exists pre, mid, post.
Qed.

Lemma quantifier_is_syntax (c : jschar) :
  is_quantifier c = true -> is_syntax_char c = true.
Proof.
  unfold is_quantifier, is_syntax_char.
  change (js "*+?") with [42; 43; 63]%N.
  change (js "^$\.*+?()[]{}|")
    with [94; 36; 92; 46; 42; 43; 63; 40; 41; 91; 93; 123; 125; 124]%N.
  cbn [existsb]. intros H.
  repeat (apply orb_true_iff in H as [H|H]); try discriminate;
    rewrite H; rewrite ?orb_true_r; reflexivity.
Qed.

Lemma plain_no_bar (w : jsstring) :
  plain w -> forallb (fun c => negb (N.eqb c bar)) w = true.
Proof.
  unfold plain. induction w as [|c w IH]; simpl; [reflexivity|].
  intros H. apply andb_true_iff in H as [Hc Hw]. rewrite IH by exact Hw.
  rewrite andb_true_r. apply negb_true_iff in Hc.
  destruct (N.eqb c bar) eqn:E; [|reflexivity].
  apply N.eqb_eq in E. subst c. discriminate.
Qed.

(** The pattern built from plain words compiles to the alternation of
    those very words. *)
Lemma RegExp_new_words (ws : list jsstring) :
  ws <> [] ->
  Forall plain ws ->
  Forall (fun w => w <> []) ws ->
  RegExp_new (join bar ws) = Done {| alternatives := ws |}.
Proof.
  intros Hne Hplain Hlong. unfold RegExp_new.
  assert (Hhead : match join bar ws with
                  | c :: _ => is_quantifier c
                  | [] => false
                  end = false).
  { destruct ws as [|w ws]; [congruence|].
    inversion Hplain as [|? ? Hw _]; subst.
    inversion Hlong as [|? ? Hw' _]; subst.
    destruct w as [|c w]; [congruence|].
    assert (Hc : is_syntax_char c = false).
    { unfold plain in Hw. simpl in Hw.
      apply andb_true_iff in Hw as [Hc _]. now apply negb_true_iff in Hc. }
    assert (Hq : is_quantifier c = false).
    { destruct (is_quantifier c) eqn:E; [|reflexivity].
      apply quantifier_is_syntax in E. congruence. }
    destruct ws; exact Hq. }
  rewrite Hhead.
  rewrite forallb_join.
  - rewrite split_join; [reflexivity|exact Hne|].
    eapply Forall_impl; [|exact Hplain]. apply plain_no_bar.
  - reflexivity.
  - eapply Forall_impl; [|exact Hplain].
    unfold plain. intros w Hw.
    rewrite forallb_forall in Hw |- *. intros c Hc.
    now rewrite (Hw c Hc).
Qed.

Lemma words_long (s w : jsstring) :
  In w (words s) <-> In w (split space s) /\ (1 < List.length w)%nat.
Proof.
  unfold words. rewrite filter_In, Nat.ltb_lt. tauto.
Qed.

(** The schema declares no category, so the handler's read
    [product.category] is [undefined] for every product. *)
Lemma product_category_undefined (d : product) :
  Document_get d "category" = VUndefined.
Proof. reflexivity. Qed.

Lemma related_found (st : db) (id : jsstring) (i : oid) (target : product)
      (re : RegExp) :
  parseObjectId id = Some i ->
  lookup st i = Some target ->
  RegExp_new (join bar (words (name target))) = Done re ->
  related st id
  = Some (respond 200
            (Related (filter (related_to i re (Document_get target "category"))
                             (products st))), st).
Proof.
  intros Hid Hl Hre. unfold related, Products_findById.
  destruct id as [|c id]; [discriminate|].
  erewrite castParam_Some by eassumption. simpl. rewrite Hl, Hre. reflexivity.
Qed.

(** What the related lookup returns.  For an existing product whose name,
    cut at every space, has at least one word longer than one character,
    and whose such words hold no character with a meaning in a regular
    expression, the answer is 200 with, in the collection's order, exactly
    the products other than the target whose name holds one of those words
    (ASCII case ignored) or that satisfy the query's category condition
    [{ category: product.category }] as the store evaluates it. *)
Lemma related_products_found (st : db) (id : jsstring) (i : oid)
        (target : product) :
  parseObjectId id = Some i ->
  lookup st i = Some target ->
  words (name target) <> [] ->
  Forall plain (words (name target)) ->
  exists relatedProducts,
    related st id = Some (respond 200 (Related relatedProducts), st)
    /\ relatedProducts
       = filter (fun d =>
                   negb (N.eqb (_id d) i)
                   && (existsb (fun w => occurs_ci w (name d))
                               (words (name target))
                       || matches_eq (Document_get target "category")
                                     (field d "category")))
                (products st)
    /\ forall d,
        In d relatedProducts
        <-> In d (products st)
            /\ _id d <> i
            /\ ((exists w, In w (split space (name target))
                           /\ (1 < List.length w)%nat
                           /\ contains_ci w (name d))
                \/ matches_eq (Document_get target "category")
                              (field d "category") = true).
Proof.
  intros Hid Hl Hne Hplain.
  assert (Hlong : Forall (fun w : jsstring => w <> []) (words (name target))).
  { apply Forall_forall. intros w Hw. apply words_long in Hw as [_ Hw].
    destruct w; [simpl in Hw; lia|discriminate]. }
  pose proof (RegExp_new_words Hne Hplain Hlong) as Hre.
  eexists. split; [eapply related_found; eassumption|].
  split; [reflexivity|].
  intros d. rewrite filter_In. unfold related_to, RegExp_test. simpl.
  rewrite andb_true_iff, negb_true_iff, N.eqb_neq, orb_true_iff, existsb_exists.
  split.
  - intros (Hin & Hi & [(w & Hw & Ho)|Hc]); (split; [exact Hin|]);
      (split; [exact Hi|]).
    + left. exists w. apply words_long in Hw as [Hw Hlen].
      split; [exact Hw|]. split; [exact Hlen|]. now apply occurs_ci_spec.
    + now right.
  - intros (Hin & Hi & [(w & Hw & Hlen & Ho)|Hc]); (split; [exact Hin|]);
      (split; [exact Hi|]).
    + left. exists w. split; [now apply words_long|]. now apply occurs_ci_spec.
    + now right.
Qed.

(** The target's category is never compared.  A product stored with a
    category, whatever it is and whatever the target's, is returned only
    for its name. *)
Lemma related_ignores_stored_category (st : db) (id : jsstring) (i : oid)
      (target d : product) (c : jsstring) (l : list product) :
  parseObjectId id = Some i ->
  lookup st i = Some target ->
  words (name target) <> [] ->
  Forall plain (words (name target)) ->
  field d "category" = VStr c ->
  existsb (fun w => occurs_ci w (name d)) (words (name target)) = false ->
  related st id = Some (respond 200 (Related l), st) ->
  ~ In d l.
Proof.
  intros Hid Hl Hne Hplain Hc Hname Hr Hin.
  destruct (related_products_found st id Hid Hl Hne Hplain)
    as (l' & Hr' & Heq & _).
  rewrite Hr in Hr'. inversion Hr' as [Hll]. clear Hr'.
  rewrite Hll, Heq in Hin. apply filter_In in Hin as [_ Hin].
  rewrite Hname, Hc in Hin.
  rewrite andb_true_iff in Hin. destruct Hin as [_ Hin].
  discriminate.
Qed.

(** And in a collection whose products are stored without a category, as
    the create handler stores them, the category condition selects every
    product: all the other products are returned, related or not. *)
Lemma related_without_categories (st : db) (id : jsstring) (i : oid)
      (target : product) :
  parseObjectId id = Some i ->
  lookup st i = Some target ->
  words (name target) <> [] ->
  Forall plain (words (name target)) ->
  Forall (fun d => extra d = []) (products st) ->
  related st id
  = Some (respond 200
            (Related (filter (fun d => negb (N.eqb (_id d) i)) (products st))),
          st).
Proof.
  intros Hid Hl Hne Hplain Hex.
  destruct (related_products_found st id Hid Hl Hne Hplain)
    as (l & Hr & -> & _).
  rewrite Hr. do 4 f_equal. apply filter_ext_in. intros d Hin.
  rewrite Forall_forall in Hex. apply Hex in Hin.
  unfold field, toObject. rewrite Hin. simpl.
  now rewrite orb_true_r, andb_true_r.
Qed.

(** C2 (the code departs from the claim).  In the catalogue of the
    specification's example the lookup for "Red Shoes Size 10" (footwear)
    returns "Blue Shoes" alone.  "Hat", stored with the target's category,
    is not returned, although the claim's sequence holds it: the handler
    reads [product.category] of a document whose schema declares no
    category, gets [undefined], and the condition it sends selects the
    products without a category instead of those of the target's. *)
Theorem related_misses_same_category :
  lookup Catalogue.st 1%N = Some Catalogue.red_shoes
  /\ long_tokens (name Catalogue.red_shoes)
     = [js "Red"; js "Shoes"; js "Size"; js "10"]
  /\ related Catalogue.st Catalogue.id1
     = Some (respond 200 (Related [Catalogue.blue_shoes]), Catalogue.st)
  /\ related_as_specified Catalogue.st Catalogue.red_shoes
     = [Catalogue.blue_shoes; Catalogue.hat]
  /\ field Catalogue.red_shoes "category" = VStr (js "footwear")
  /\ field Catalogue.hat "category" = VStr (js "footwear")
  /\ Document_get Catalogue.red_shoes "category" = VUndefined.
Proof.
  repeat match goal with |- _ /\ _ => split end; vm_compute; reflexivity.
Qed.

(** The pattern is built from the words as they are.  A product named
    "*NEW* Shoes" has two tokens longer than one character, but the pattern
    "*NEW*|Shoes" opens with a quantifier: [new RegExp] throws and the
    lookup answers 500 instead of a sequence of products. *)
Lemma related_throws_on_quantifier :
  ~ (forall (st : db) (id : jsstring) (i : oid) (target : product),
        parseObjectId id = Some i ->
        lookup st i = Some target ->
        long_tokens (name target) <> [] ->
        related st id
        = Some (respond 200 (Related (related_as_specified st target)), st)).
Proof.
  intros H.
  specialize (H RelatedExample.st_quantifier Catalogue.id1 1%N
                RelatedExample.new_shoes eq_refl eq_refl).
  assert (Hlong : long_tokens (name RelatedExample.new_shoes) <> [])
    by (vm_compute; discriminate).
  apply H in Hlong. vm_compute in Hlong. discriminate.
Qed.

(** The name is cut at spaces only, not at white space: the
    handler cuts the name at spaces only, so "Red<TAB>Shoes" is one word and
    the product "Shoes" of another category is not returned, although
    "Shoes" is one of the name's white-space tokens. *)
Lemma related_splits_on_space_only :
  related RelatedExample.st_tab Catalogue.id1
  = Some (respond 200 (Related []), RelatedExample.st_tab)
  /\ long_tokens (name RelatedExample.tabbed) = [js "Red"; js "Shoes"]
  /\ related_as_specified RelatedExample.st_tab RelatedExample.tabbed
     = [RelatedExample.shoes].
Proof. repeat split; vm_compute; reflexivity. Qed.

Lemma occurs_ci_nil (s : jsstring) : occurs_ci [] s = true.
Proof. destruct s; reflexivity. Qed.

(** An empty pattern matches every name: when no word of the target's
    name is longer than one character, every other product is returned. *)
Lemma related_empty_pattern (st : db) (id : jsstring) (i : oid)
      (target : product) :
  parseObjectId id = Some i ->
  lookup st i = Some target ->
  words (name target) = [] ->
  related st id
  = Some (respond 200
            (Related (filter (fun d => negb (N.eqb (_id d) i)) (products st))),
          st).
Proof.
  intros Hid Hl Hw.
  erewrite related_found;
    [|eassumption|eassumption|rewrite Hw; reflexivity].
  do 4 f_equal. apply filter_ext. intros d.
  unfold related_to, RegExp_test. simpl.
  now rewrite occurs_ci_nil, andb_true_r.
Qed.

(** C3 (the code departs from the claim).  The product "A" has no word
    longer than one character; its related lookup returns both other
    products of the store, "Blue Shoes" (apparel) and "Lamp" (home),
    neither of which shares its category (footwear): the empty pattern
    matches every name. *)
Theorem related_single_letter_name :
  words (name RelatedExample.a) = []
  /\ related RelatedExample.st_single Catalogue.id1
     = Some (respond 200 (Related [Catalogue.blue_shoes; Catalogue.lamp]),
             RelatedExample.st_single)
  /\ RegExp_new (join bar (words (name RelatedExample.a)))
     = Done {| alternatives := [[]] |}
  /\ (forall s, RegExp_test {| alternatives := [[]] |} s = true)
  /\ value_eqb (field RelatedExample.a "category")
               (field Catalogue.blue_shoes "category") = false
  /\ value_eqb (field RelatedExample.a "category")
               (field Catalogue.lamp "category") = false.
Proof.
  split; [reflexivity|]. split.
  - rewrite (@related_empty_pattern RelatedExample.st_single Catalogue.id1
               1%N RelatedExample.a eq_refl eq_refl eq_refl).
    reflexivity.
  - split; [reflexivity|]. split; [|split; reflexivity].
    intros s. unfold RegExp_test. simpl. now rewrite occurs_ci_nil.
Qed.

(* ================================================================== *)
(** * Further properties of the router *)

(** ** The names of uploaded files *)

Lemma split_acc_nonempty (sep : jschar) (cur s : jsstring) :
  split_acc sep cur s <> [].
Proof.
  revert cur. induction s as [|c s IH]; simpl; intros cur; [discriminate|].
  destruct (N.eqb c sep); [discriminate|apply IH].
Qed.

Lemma last_cons_nonempty {A} (x : A) (l : list A) (d : A) :
  l <> [] -> last (x :: l) d = last l d.
Proof. destruct l; [congruence|reflexivity]. Qed.

(** The last piece of a split holds no separator, and the string is that
    piece alone or ends with the separator followed by that piece. *)
Lemma split_acc_last (sep : jschar) (s cur : jsstring) :
  forallb (fun c => negb (N.eqb c sep)) cur = true ->
  let e := last (split_acc sep cur s) [] in
  forallb (fun c => negb (N.eqb c sep)) e = true
  /\ (rev cur ++ s = e \/ exists stem, rev cur ++ s = stem ++ sep :: e).
Proof.
  revert cur. induction s as [|c s IH]; intros cur Hcur; simpl.
  - split.
    + rewrite forallb_forall in Hcur |- *. intros x Hx.
      apply Hcur. now apply in_rev.
    + left. now rewrite app_nil_r.
  - destruct (N.eqb c sep) eqn:E.
    + apply N.eqb_eq in E. subst c.
      rewrite last_cons_nonempty by apply split_acc_nonempty.
      destruct (IH [] eq_refl) as [He Hs]. split; [exact He|].
      right. simpl in Hs. destruct Hs as [Hs|[stem Hs]].
      * exists (rev cur). now rewrite <- Hs.
      * exists (rev cur ++ sep :: stem). rewrite <- app_assoc. simpl.
        now rewrite <- Hs.
    + assert (Hcur' : forallb (fun c0 => negb (N.eqb c0 sep)) (c :: cur) = true)
        by (simpl; now rewrite E, Hcur).
      destruct (IH (c :: cur) Hcur') as [He Hs]. split; [exact He|].
      simpl in Hs. rewrite <- app_assoc in Hs. exact Hs.
Qed.

(** X1.  The name under which an upload is stored is the field name, the
    clock and the random number in decimal, and an extension taken from
    the client's file name: the text after its last dot, or the whole name
    when it has no dot.  The extension never holds a dot, and nothing else
    of the client's name reaches the stored name. *)
Theorem filename_extension (urt : upload_runtime) (file : file_part) :
  exists ext,
    filename urt file
    = fieldname file ++ dash :: Number_toString (Date_now urt)
      ++ dash :: Number_toString (random_1E9 urt) ++ dot :: ext
    /\ forallb (fun c => negb (N.eqb c dot)) ext = true
    /\ (originalname file = ext
        \/ exists stem, originalname file = stem ++ dot :: ext).
Proof.
  exists (pop (split dot (originalname file))). split.
  - unfold filename. now rewrite <- app_assoc.
  - exact (split_acc_last dot (originalname file) [] eq_refl).
Qed.

Lemma uint_chars_inj (d d' : Decimal.uint) :
  uint_chars d = uint_chars d' -> d = d'.
Proof.
  revert d'. induction d; destruct d'; simpl; intros H;
    try discriminate; try reflexivity;
    inversion H; f_equal; auto.
Qed.

Lemma Number_toString_inj (n n' : N) :
  Number_toString n = Number_toString n' -> n = n'.
Proof.
  unfold Number_toString. intros H.
  apply DecimalN.Unsigned.to_uint_inj. now apply uint_chars_inj.
Qed.

Lemma uint_chars_digits (d : Decimal.uint) : Forall is_digit (uint_chars d).
Proof.
  induction d; simpl; constructor; try assumption; unfold is_digit; lia.
Qed.

(** Two strings cut at the first occurrence of a separator. *)
Lemma cut_unique (sep : jschar) (x x' y y' : jsstring) :
  ~ In sep x -> ~ In sep x' ->
  x ++ sep :: y = x' ++ sep :: y' -> x = x' /\ y = y'.
Proof.
  revert x'. induction x as [|c x IH]; intros x' Hx Hx' H;
    destruct x' as [|c' x']; simpl in *; inversion H; subst.
  - now split.
  - exfalso. apply Hx'. now left.
  - exfalso. apply Hx. now left.
  - destruct (IH x') as [Hxx Hyy]; try assumption; try tauto.
    subst. now split.
Qed.

Lemma digits_without (sep : jschar) (n : N) :
  ~ is_digit sep -> ~ In sep (Number_toString n).
Proof.
  intros Hsep Hin.
  pose proof (uint_chars_digits (N.to_uint n)) as Hd.
  rewrite Forall_forall in Hd. now apply Hd in Hin.
Qed.

(** X2.  Stored names do not collide: two uploads under the same field
    get the same name only if the clock and the random number were the
    same for both (and then their extensions are the same too). *)
Theorem filename_unique (urt urt' : upload_runtime) (file file' : file_part) :
  fieldname file = fieldname file' ->
  filename urt file = filename urt' file' ->
  Date_now urt = Date_now urt'
  /\ random_1E9 urt = random_1E9 urt'
  /\ pop (split dot (originalname file))
     = pop (split dot (originalname file')).
Proof.
  unfold filename. intros Hf H. rewrite Hf in H.
  apply app_inv_head in H. inversion H as [H1]. clear H.
  rewrite <- !app_assoc in H1. simpl in H1.
  apply cut_unique in H1 as [Hn H2];
    try (apply digits_without; unfold is_digit, dash; lia).
  apply cut_unique in H2 as [Hr He];
    try (apply digits_without; unfold is_digit, dot; lia).
  apply Number_toString_inj in Hn, Hr. now repeat split.
Qed.

Lemma filename_unique_witness :
  fieldname UploadExample.photo = fieldname UploadExample.photo
  /\ filename UploadExample.at_noon UploadExample.photo
     = js "image-1700000000500-7.PNG"
  /\ filename UploadExample.at_noon UploadExample.photo
     <> filename UploadExample.a_bit_later UploadExample.photo.
Proof.
  split; [reflexivity|]. split; [reflexivity|].
  intros H.
  destruct (filename_unique UploadExample.at_noon UploadExample.a_bit_later
              UploadExample.photo UploadExample.photo eq_refl H) as [Hn _].
  discriminate Hn.
Defined.

(** ** The update route behind its middleware *)

Lemma JsString_eqb_eq (s t : jsstring) : JsString.eqb s t = true <-> s = t.
Proof.
  revert t. induction s as [|c s IH]; destruct t as [|d t]; simpl;
    try (split; [discriminate|discriminate]); [tauto|].
  rewrite andb_true_iff, N.eqb_eq, IH. split.
  - intros [-> ->]. reflexivity.
  - intros H. inversion H. now split.
Qed.

Lemma strip_prefix_spec (p s r : jsstring) :
  strip_prefix p s = Some r <-> s = p ++ r.
Proof.
  revert s. induction p as [|c p IH]; intros s; simpl.
  - split; [now intros [= ->]|now intros ->].
  - destruct s as [|d s].
    + split; discriminate.
    + destruct (N.eqb c d) eqn:E.
      * apply N.eqb_eq in E. subst d. rewrite IH. split.
        -- now intros ->.
        -- intros H. now inversion H.
      * apply N.eqb_neq in E. split; [discriminate|].
        intros H. inversion H. congruence.
Qed.

(** The size limit is the largest size accepted: a file of exactly
    5 * 1024 * 1024 bytes is stored, a file of one byte more ends the
    request with an error. *)
Lemma upload_at_the_limit (urt : upload_runtime) :
  size UploadExample.full = fileSize
  /\ upload_single (js "image") urt (Some UploadExample.full)
     = Some (Stored (Some (destination ++ filename urt UploadExample.full)))
  /\ upload_single (js "image") urt (Some UploadExample.too_big)
     = Some Rejected.
Proof. repeat split. Qed.

(** X3.  When a PATCH /update-product/:id request changes the store, both
    checks let it through and the handler answered 200; if the request
    carried a file, that file came under the field "image", with a type
    that starts with "image/" and at most 5 * 1024 * 1024 bytes, and
    the product's image is now the one-element sequence holding
    "uploads/products/" followed by the generated file name. *)
Theorem patch_installs_upload
        (request_info : Type)
        (verifyToken verifyAdmin : request_info -> option request_info)
        (rt : runtime) (urt : upload_runtime) (st : db) (req : request_info)
        (id : jsstring) (req_body : object) (part : option file_part)
        (a : routed) (st' : db) :
  patch_update_product verifyToken verifyAdmin rt urt st req id req_body part
  = Some (a, st') ->
  st' <> st ->
  (exists req1 req2, verifyToken req = Some req1 /\ verifyAdmin req1 = Some req2)
  /\ (exists d, a = Handled (respond 200 (Updated msg_updated d))
                /\ lookup st' (_id d) = Some d
                /\ match part with
                   | Some file =>
                       image d = [destination ++ filename urt file]
                   | None => True
                   end)
  /\ match part with
     | Some file =>
         fieldname file = js "image"
         /\ (exists subtype, mimetype file = js "image/" ++ subtype)
         /\ (size file <= 5 * 1024 * 1024)%N
     | None => True
     end.
Proof.
  unfold patch_update_product. intros H Hne.
  destruct (verifyToken req) as [req1|] eqn:Et;
    [|inversion H; subst; contradiction].
  destruct (verifyAdmin req1) as [req2|] eqn:Ea;
    [|inversion H; subst; contradiction].
  split; [now exists req1, req2|].
  destruct (upload_single (js "image") urt part) as [[req_file|]|] eqn:Eu;
    [| inversion H; subst; contradiction | discriminate].
  destruct (update_product rt st id req_body req_file) as [[r st1]|] eqn:Eup;
    [|discriminate].
  inversion H; subst a st1; clear H.
  apply update_step in Eup
    as [[-> _]|(d & d' & Hin & -> & Hid & Hp & Him)]; [contradiction|].
  assert (Hl : lookup st' (_id d') = Some d').
  { destruct st' as [ps rv us]. simpl in Hp. subst ps.
    rewrite Hid. now apply lookup_replace. }
  destruct part as [file|]; simpl in Eu.
  - destruct (existsb (N.eqb slash) (originalname file)); [discriminate|].
    destruct (JsString.eqb (fieldname file) (js "image")) eqn:Ef;
      simpl in Eu; [|discriminate].
    destruct (fileFilter file) eqn:Eff; simpl in Eu; [|discriminate].
    destruct (N.ltb fileSize (size file)) eqn:Es; [discriminate|].
    inversion Eu; subst req_file. split.
    + exists d'. repeat split; assumption.
    + split; [now apply JsString_eqb_eq|]. split.
      * unfold fileFilter in Eff.
        destruct (strip_prefix (js "image/") (mimetype file)) as [r|] eqn:Ep;
          [|discriminate].
        exists r. now apply strip_prefix_spec.
      * apply N.ltb_ge in Es. exact Es.
  - inversion Eu; subst req_file. split; [|exact I].
    exists d'. repeat split; assumption.
Qed.

Lemma patch_installs_upload_witness :
  exists st',
    patch_update_product (fun req : unit => Some req) (fun req => Some req)
      ImageExample.later UploadExample.at_noon Catalogue.st tt Catalogue.id1
      [("name", VStr (js "Trail shoes"))] (Some UploadExample.photo)
    = Some (Handled
              (respond 200
                 (Updated msg_updated
                    {| _id := 1; name := js "Trail shoes"; description := js "-";
                       image := [js "uploads/products/image-1700000000500-7.PNG"];
                       author := 7; createdAt := 10;
                       updatedAt := 1700000000500; __v := 0;
                       extra := [("category", VStr (js "footwear"))] |})),
            st')
    /\ st' <> Catalogue.st
    /\ fieldname UploadExample.photo = js "image".
Proof.
  eexists. split; [vm_compute; reflexivity|].
  assert (Hne : {| products :=
                     [{| _id := 1; name := js "Trail shoes"; description := js "-";
                         image := [js "uploads/products/image-1700000000500-7.PNG"];
                         author := 7; createdAt := 10;
                         updatedAt := 1700000000500; __v := 0;
                         extra := [("category", VStr (js "footwear"))] |};
                      Catalogue.blue_shoes; Catalogue.hat; Catalogue.lamp];
                   reviews := reviews Catalogue.st;
                   users := users Catalogue.st |} <> Catalogue.st)
    by (vm_compute; discriminate).
  split; [exact Hne|].
  refine (proj1 (proj2 (proj2
    (@patch_installs_upload unit (fun req => Some req) (fun req => Some req)
       ImageExample.later UploadExample.at_noon Catalogue.st tt Catalogue.id1
       [("name", VStr (js "Trail shoes"))] (Some UploadExample.photo)
       _ _ _ Hne)))).
  vm_compute. reflexivity.
Defined.

(** ** POST /uploadImages *)

(** X4.  The images route answers 400 exactly when the body's [images] is
    not an array (missing, null, a string or an object alike); every
    array, the empty one included, is handed to [uploadImages], whose
    result is sent with 200 and whose failure is answered 500.  The store
    is never touched. *)
Theorem uploadImages_needs_array
        (uploadImages : list value -> outcome value) (st : db)
        (req_body : object) :
  (isArray (get req_body "images") = false ->
   post_uploadImages uploadImages st req_body
   = Some (Problem 400 msg_images_required, st))
  /\ (forall xs, get req_body "images" = VArr xs ->
        post_uploadImages uploadImages st req_body
        = match uploadImages xs with
          | Done uploadedUrls => Some (Locations 200 uploadedUrls, st)
          | Thrown => Some (Problem 500 msg_images_failed, st)
          | Beyond => None
          end)
  /\ (forall r st', post_uploadImages uploadImages st req_body = Some (r, st') ->
        st' = st).
Proof.
  unfold post_uploadImages. split; [|split].
  - intros H. rewrite H. simpl. now rewrite orb_true_r.
  - intros xs ->. reflexivity.
  - intros r st'.
    destruct (negb (truthy (get req_body "images"))
              || negb (isArray (get req_body "images"))).
    + now intros [= _ ->].
    + destruct (get req_body "images"); try discriminate.
      destruct (uploadImages xs); try discriminate; now intros [= _ ->].
Qed.

Lemma uploadImages_needs_array_witness :
  isArray (get [("images", VStr (js "a.png"))] "images") = false
  /\ post_uploadImages (fun xs => Done (VArr xs)) CreateExample.st0
       [("images", VStr (js "a.png"))]
     = Some (Problem 400 msg_images_required, CreateExample.st0)
  /\ post_uploadImages (fun xs => Done (VArr xs)) CreateExample.st0
       [("images", VArr [])]
     = Some (Locations 200 (VArr []), CreateExample.st0).
Proof.
  split; [reflexivity|].
  destruct (uploadImages_needs_array (fun xs => Done (VArr xs))
              CreateExample.st0 [("images", VStr (js "a.png"))])
    as (H400 & _ & _).
  split; [exact (H400 eq_refl)|].
  destruct (uploadImages_needs_array (fun xs => Done (VArr xs))
              CreateExample.st0 [("images", VArr [])])
    as (_ & Harr & _).
  exact (Harr [] eq_refl).
Defined.

(** ** Creating, then reading *)

Lemma mapM_strings (l : list jsstring) :
  mapM castStringElement (map VStr l) = Done l.
Proof. induction l as [|s l IH]; simpl; [reflexivity|now rewrite IH]. Qed.

Lemma lookup_app_new (ps : list product) (d : product) (rv : list review)
      (us : list user) :
  find (fun x => N.eqb (_id x) (_id d)) ps = None ->
  lookup {| products := ps ++ [d]; reviews := rv; users := us |} (_id d)
  = Some d.
Proof.
  unfold lookup. simpl. induction ps as [|x ps IH]; simpl.
  - now rewrite N.eqb_refl.
  - destruct (N.eqb (_id x) (_id d)); [discriminate|exact IH].
Qed.

(** X5.  A product is stored as it was sent.  When name and description
    are non-empty strings, image is an array of strings, author spells an
    ObjectId and the generated id is not taken, create answers 201 with a
    document holding exactly that name, that description, those images in
    their order and that author, both timestamps set to the clock and
    version 0, and appends it to the collection, leaving the earlier
    products, the reviews and the users as they were. *)
Theorem create_stores_request (rt : runtime) (st : db) (req_body : object)
        (n ds : jsstring) (imgs : list jsstring) (a : jsstring) (au : oid) :
  get req_body "name" = VStr n -> n <> [] ->
  get req_body "description" = VStr ds -> ds <> [] ->
  get req_body "image" = VArr (map VStr imgs) ->
  get req_body "author" = VStr a -> parseObjectId a = Some au ->
  lookup st (newId rt) = None ->
  let d := {| _id := newId rt; name := n; description := ds; image := imgs;
              author := au; createdAt := now rt; updatedAt := now rt;
              __v := 0; extra := [] |} in
  create_product rt st req_body
  = Some (respond 201 (Saved d),
          {| products := products st ++ [d];
             reviews := reviews st; users := users st |}).
Proof.
  intros Hn Hn0 Hd Hd0 Hi Ha Hau Hfresh d.
  assert (Ha0 : a <> []) by (intros ->; discriminate).
  unfold create_product. rewrite Hn, Hd, Hi, Ha.
  destruct n as [|c n]; [congruence|].
  destruct ds as [|c' ds]; [congruence|].
  destruct a as [|c'' a]; [congruence|].
  simpl truthy. simpl negb. simpl orb. cbv iota.
  unfold save, Products_new, newProduct_fields. simpl filter. simpl get.
  simpl castString. simpl castStringArray. rewrite mapM_strings.
  simpl castObjectId. unfold castObjectIdString. rewrite Hau.
  simpl. rewrite Hfresh. reflexivity.
Qed.

Lemma create_stores_request_witness :
  create_product CreateExample.rt CreateExample.st0 CreateExample.req_body
  = Some (respond 201 (Saved CreateExample.saved),
          {| products := [CreateExample.saved]; reviews := []; users := [] |}).
Proof.
  exact (@create_stores_request CreateExample.rt CreateExample.st0
           CreateExample.req_body (js "Shoes") (js "Running shoes")
           [js "shoes.png"] (js "64b7f0c2a1b2c3d4e5f60718")
           31170871365399813531073120024%N
           eq_refl ltac:(discriminate) eq_refl ltac:(discriminate)
           eq_refl eq_refl eq_refl eq_refl).
Defined.

(** X6.  What create returns with 201 can be fetched at once: the id of
    the new document resolves to it, and GET /:id on that id answers 200
    with the document and with whatever reviews already pointed at that
    id. *)
Theorem create_then_get (rt : runtime) (st : db) (req_body : object)
        (d : product) (st' : db) (id : jsstring) :
  create_product rt st req_body = Some (respond 201 (Saved d), st') ->
  parseObjectId id = Some (newId rt) ->
  _id d = newId rt
  /\ lookup st' (newId rt) = Some d
  /\ get_product st' id
     = Some (respond 200
               (Single (populate st' author ["email"; "username"] d)
                  (map (populate st' userId ["username"; "email"])
                     (filter (fun r => N.eqb (productId r) (newId rt))
                             (reviews st)))),
             st').
Proof.
  intros Hc Hid.
  apply create_201 in Hc as (d0 & Hd & Hsave); [|reflexivity].
  simpl in Hd. inversion Hd; subst d0; clear Hd.
  apply save_Done in Hsave as (_ & _ & Hnew & _ & Hfresh & ->).
  assert (Hl : lookup {| products := products st ++ [d];
                         reviews := reviews st; users := users st |}
                      (newId rt) = Some d).
  { rewrite <- Hnew. apply lookup_app_new. rewrite Hnew. exact Hfresh. }
  split; [exact Hnew|]. split; [exact Hl|].
  unfold get_product, Products_findById, Reviews_find.
  erewrite castParam_Some by eassumption. simpl. rewrite Hl. reflexivity.
Qed.

Lemma create_then_get_witness :
  parseObjectId ImageExample.id1 = Some (newId CreateExample.rt)
  /\ get_product {| products := [CreateExample.saved]; reviews := [];
                    users := [] |} ImageExample.id1
     = Some (respond 200
               (Single {| doc := CreateExample.saved; ref := None |} []),
             {| products := [CreateExample.saved]; reviews := [];
                users := [] |}).
Proof.
  split; [reflexivity|].
  exact (proj2 (proj2 (@create_then_get CreateExample.rt CreateExample.st0
                         CreateExample.req_body CreateExample.saved _
                         ImageExample.id1 ltac:(vm_compute; reflexivity)
                         eq_refl))).
Defined.

(** ** Updating a product *)

Lemma castParam_Done (id : jsstring) (i : oid) :
  castParam id = Done i -> parseObjectId id = Some i.
Proof.
  unfold castParam, castObjectIdString.
  destruct (parseObjectId id); [now intros [= ->]|].
  destruct (Nat.eqb _ _); discriminate.
Qed.

(** The two ways the update handler ends: without touching the store, with
    404 or 500, or with 200 after replacing one stored product by its
    updated version. *)
Lemma update_cases (rt : runtime) (st : db) (id : jsstring) (req_body : object)
      (req_file : option jsstring) (r : response) (st' : db) :
  update_product rt st id req_body req_file = Some (r, st') ->
  (st' = st
   /\ (r = respond 404 (Message msg_not_found)
       \/ r = respond 500 (Failure msg_update_failed))
   /\ (r = respond 404 (Message msg_not_found) ->
       exists i, parseObjectId id = Some i /\ lookup st i = None))
  \/ exists i c d,
      parseObjectId id = Some i
      /\ castUpdate (update_data req_body req_file) = Done c
      /\ lookup st i = Some d
      /\ r = respond 200 (Updated msg_updated (apply_changes rt c d))
      /\ st' = {| products := replace (apply_changes rt c d) (products st);
                  reviews := reviews st; users := users st |}.
Proof.
  unfold update_product, Products_findByIdAndUpdate.
  fold (update_data req_body req_file). intros H.
  destruct (castParam id) as [i| |] eqn:Ei; simpl in H; [| |discriminate].
  2:{ inversion H. left. split; [reflexivity|]. split; [now right|].
      discriminate. }
  apply castParam_Done in Ei.
  destruct (castUpdate (update_data req_body req_file)) as [c| |] eqn:Ec;
    simpl in H; [| |discriminate].
  2:{ inversion H. left. split; [reflexivity|]. split; [now right|].
      discriminate. }
  destruct (lookup st i) as [d|] eqn:El; simpl in H; inversion H; subst.
  - right. exists i, c, d. repeat split; assumption.
  - left. split; [reflexivity|]. split; [now left|].
    intros _. now exists i.
Qed.

Lemma existsb_set (f : string -> bool) (k : string) (v : value) (o : object) :
  existsb (fun kv => f (fst kv)) (set k v o)
  = existsb (fun kv => f (fst kv)) o || f k.
Proof.
  induction o as [|[k' v'] o IH]; simpl.
  - now rewrite orb_false_r.
  - destruct (String.eqb k k') eqn:E; simpl.
    + apply String.eqb_eq in E. subst k'.
      destruct (f k); simpl; rewrite ?orb_true_r, ?orb_false_r; reflexivity.
    + rewrite IH. now rewrite orb_assoc.
Qed.

Lemma castUpdate_ext (o o' : object) :
  existsb (fun kv => key_beyond (fst kv)) o
  = existsb (fun kv => key_beyond (fst kv)) o' ->
  get o "name" = get o' "name" ->
  get o "description" = get o' "description" ->
  get o "image" = get o' "image" ->
  get o "author" = get o' "author" ->
  castUpdate o = castUpdate o'.
Proof.
  unfold castUpdate, set_path. now intros -> -> -> -> ->.
Qed.

Lemma update_data_get (req_body : object) (req_file : option jsstring)
      (k : string) :
  get (update_data req_body req_file) k
  = if String.eqb k "image" then
      match req_file with
      | Some file_path => VArr [VStr file_path]
      | None => get req_body "image"
      end
    else get req_body k.
Proof.
  unfold update_data.
  destruct (String.eqb k "image") eqn:Ei.
  - apply String.eqb_eq in Ei. subst k. destruct req_file.
    + apply get_set_same.
    + now rewrite get_set_other by discriminate.
  - apply String.eqb_neq in Ei.
    assert (Ha : get (set "author" (get req_body "author") req_body) k
                 = get req_body k).
    { destruct (String.eqb k "author") eqn:Ea.
      - apply String.eqb_eq in Ea. subst k. apply get_set_same.
      - apply String.eqb_neq in Ea. apply get_set_other. congruence. }
    destruct req_file; [|exact Ha].
    rewrite get_set_other by congruence. exact Ha.
Qed.

Lemma update_data_beyond (req_body : object) (req_file : option jsstring) :
  existsb (fun kv => key_beyond (fst kv)) (update_data req_body req_file)
  = existsb (fun kv => key_beyond (fst kv)) req_body.
Proof.
  unfold update_data. destruct req_file; rewrite !existsb_set; simpl;
    now rewrite ?orb_false_r.
Qed.

(** X7.  An update cannot write a field the schema does not declare: a
    key such as category, price or quantity in the body changes neither
    the answer nor the store. *)
Theorem update_ignores_undeclared (rt : runtime) (st : db) (id : jsstring)
        (req_body : object) (req_file : option jsstring)
        (k : string) (v : value) :
  declares ProductSchema k = false ->
  key_beyond k = false ->
  update_product rt st id (set k v req_body) req_file
  = update_product rt st id req_body req_file.
Proof.
  intros Hk Hb.
  assert (Hne : forall k', declares ProductSchema k' = true -> k <> k')
    by (intros k' Hk' ->; congruence).
  assert (Hc : castUpdate (update_data (set k v req_body) req_file)
               = castUpdate (update_data req_body req_file)).
  { apply castUpdate_ext.
    - rewrite !update_data_beyond, existsb_set, Hb. apply orb_false_r.
    - rewrite !update_data_get. simpl. apply get_set_other. now apply Hne.
    - rewrite !update_data_get. simpl. apply get_set_other. now apply Hne.
    - rewrite !update_data_get. simpl. destruct req_file; [reflexivity|].
      apply get_set_other. now apply Hne.
    - rewrite !update_data_get. simpl. apply get_set_other. now apply Hne. }
  unfold update_product, Products_findByIdAndUpdate.
  fold (update_data (set k v req_body) req_file).
  fold (update_data req_body req_file).
  now rewrite Hc.
Qed.

Lemma update_ignores_undeclared_witness :
  declares ProductSchema "category" = false
  /\ key_beyond "category" = false
  /\ update_product ImageExample.later Catalogue.st Catalogue.id1
       [("name", VStr (js "Trail shoes")); ("category", VStr (js "sport"))]
       None
     = update_product ImageExample.later Catalogue.st Catalogue.id1
         [("name", VStr (js "Trail shoes"))] None
  /\ exists d st',
      update_product ImageExample.later Catalogue.st Catalogue.id1
        [("name", VStr (js "Trail shoes")); ("category", VStr (js "sport"))]
        None
      = Some (respond 200 (Updated msg_updated d), st')
      /\ field d "category" = VStr (js "footwear").
Proof.
  split; [reflexivity|]. split; [reflexivity|]. split.
  - exact (@update_ignores_undeclared ImageExample.later Catalogue.st
             Catalogue.id1 [("name", VStr (js "Trail shoes"))] None
             "category" (VStr (js "sport")) eq_refl eq_refl).
  - do 2 eexists. split; vm_compute; reflexivity.
Defined.

Lemma set_path_absent {A B} (o : object) (k : string)
      (cast : value -> outcome (option A))
      (validate : option A -> outcome B) (r : option B) :
  set_path o k cast validate = Done r -> has_key o k = false -> r = None.
Proof.
  unfold set_path. intros H Hk. apply get_absent in Hk. rewrite Hk in H.
  now inversion H.
Qed.

Lemma castUpdate_Done (o : object) (c : changes) :
  castUpdate o = Done c ->
  set_path o "name" castString requiredString = Done (set_name c)
  /\ set_path o "description" castString requiredString
     = Done (set_description c)
  /\ set_path o "image" (castStringArray true) requiredValue
     = Done (set_image c)
  /\ set_path o "author" castObjectId requiredValue = Done (set_author c).
Proof.
  unfold castUpdate. destruct (existsb _ _); [discriminate|].
  intros H. invert_bind H. inversion H; subst c. simpl.
  repeat split; assumption.
Qed.

Lemma has_key_get (o : object) (k : string) :
  has_key o k = false -> get o k = VUndefined.
Proof. apply get_absent. Qed.

Lemma replace_other (d' x : product) (l : list product) :
  In x l -> _id x <> _id d' -> In x (replace d' l).
Proof.
  intros Hin Hne. unfold replace. apply in_map_iff. exists x.
  split; [|exact Hin].
  destruct (N.eqb (_id x) (_id d')) eqn:E; [|reflexivity].
  apply N.eqb_eq in E. contradiction.
Qed.

(** X8.  A successful update changes one product and only what the
    request names.  The product keeps its id, its creation time, its
    version and its fields outside the schema; its update time becomes the
    clock; name, description and author stay as stored when the body has
    no such key, and so does image when in addition no file came.  Every
    other product, every review and every user is left as it was. *)
Theorem update_changes_what_is_named
        (rt : runtime) (st : db) (id : jsstring) (req_body : object)
        (req_file : option jsstring) (m : string) (d' : product) (st' : db) :
  update_product rt st id req_body req_file
  = Some (respond 200 (Updated m d'), st') ->
  exists i d,
    parseObjectId id = Some i /\ lookup st i = Some d
    /\ _id d' = i /\ createdAt d' = createdAt d /\ __v d' = __v d
    /\ extra d' = extra d /\ updatedAt d' = now rt
    /\ (has_key req_body "name" = false -> name d' = name d)
    /\ (has_key req_body "description" = false ->
        description d' = description d)
    /\ (has_key req_body "author" = false -> author d' = author d)
    /\ (has_key req_body "image" = false -> req_file = None ->
        image d' = image d)
    /\ products st' = replace d' (products st)
    /\ (forall x, In x (products st) -> _id x <> i -> In x (products st'))
    /\ reviews st' = reviews st /\ users st' = users st.
Proof.
  intros H.
  apply update_cases in H
    as [(_ & [Hr|Hr] & _)|(i & c & d & Hid & Hc & Hl & Hr & ->)];
    try discriminate.
  inversion Hr; subst m d'; clear Hr.
  apply castUpdate_Done in Hc as (Hn & Hd & Hi & Ha).
  pose proof (lookup_In _ _ Hl) as [Hin Hidd].
  exists i, d. simpl.
  split; [exact Hid|]. split; [exact Hl|]. split; [exact Hidd|].
  do 4 (split; [reflexivity|]).
  assert (Hget : forall k, k <> "image" -> has_key req_body k = false ->
                           get (update_data req_body req_file) k = VUndefined).
  { intros k Hk Habs. rewrite update_data_get.
    apply String.eqb_neq in Hk. rewrite Hk. now apply get_absent. }
  split.
  { intros Hk. unfold set_path in Hn. rewrite Hget in Hn by (congruence || exact Hk).
    assert (Hs : set_name c = None) by congruence. now rewrite Hs. }
  split.
  { intros Hk. unfold set_path in Hd. rewrite Hget in Hd by (congruence || exact Hk).
    assert (Hs : set_description c = None) by congruence. now rewrite Hs. }
  split.
  { intros Hk. unfold set_path in Ha. rewrite Hget in Ha by (congruence || exact Hk).
    assert (Hs : set_author c = None) by congruence. now rewrite Hs. }
  split.
  { intros Hk ->. unfold set_path in Hi. rewrite update_data_get in Hi.
    simpl in Hi. rewrite (get_absent _ _ Hk) in Hi.
    assert (Hs : set_image c = None) by congruence. now rewrite Hs. }
  split; [reflexivity|]. split; [|split; reflexivity].
  intros x Hx Hne. apply replace_other; [exact Hx|]. simpl. congruence.
Qed.

Lemma update_changes_what_is_named_witness :
  exists d' st',
    update_product ImageExample.later Catalogue.st Catalogue.id1
      [("name", VStr (js "Trail shoes"))] None
    = Some (respond 200 (Updated msg_updated d'), st')
    /\ description d' = description Catalogue.red_shoes
    /\ image d' = image Catalogue.red_shoes
    /\ name d' = js "Trail shoes"
    /\ In Catalogue.hat (products st').
Proof.
  do 2 eexists. split; [vm_compute; reflexivity|].
  destruct (@update_changes_what_is_named ImageExample.later Catalogue.st
              Catalogue.id1 [("name", VStr (js "Trail shoes"))] None
              msg_updated _ _ ltac:(vm_compute; reflexivity))
    as (i & d & Hid & Hl & _ & _ & _ & _ & _ & _ & Hd & _ & Hi & _ & Ho & _).
  vm_compute in Hid. inversion Hid; subst i.
  vm_compute in Hl. inversion Hl; subst d.
  split; [exact (Hd eq_refl)|]. split; [exact (Hi eq_refl eq_refl)|].
  split; [reflexivity|].
  apply Ho; [simpl; tauto|discriminate].
Defined.



(** X10.  An update that sets the name to the empty string or to null is
    refused by the schema's validation: the answer is 500 and the store
    is unchanged, whether or not the id resolves. *)
Theorem update_rejects_empty_name (rt : runtime) (st : db) (id : jsstring)
        (i : oid) (req_body : object) (req_file : option jsstring) :
  parseObjectId id = Some i ->
  existsb (fun kv => key_beyond (fst kv)) req_body = false ->
  get req_body "name" = VStr [] \/ get req_body "name" = VNull ->
  update_product rt st id req_body req_file
  = Some (respond 500 (Failure msg_update_failed), st).
Proof.
  intros Hid Hb Hn. unfold update_product, Products_findByIdAndUpdate.
  fold (update_data req_body req_file).
  erewrite castParam_Some by eassumption. simpl.
  assert (Hc : castUpdate (update_data req_body req_file) = Thrown).
  { unfold castUpdate. rewrite update_data_beyond, Hb.
    unfold set_path at 1. rewrite update_data_get. simpl.
    destruct Hn as [-> | ->]; reflexivity. }
  now rewrite Hc.
Qed.

Lemma update_rejects_empty_name_witness :
  parseObjectId Catalogue.id1 = Some 1%N
  /\ get [("name", VStr [])] "name" = VStr []
  /\ update_product ImageExample.later Catalogue.st Catalogue.id1
       [("name", VStr [])] None
     = Some (respond 500 (Failure msg_update_failed), Catalogue.st).
Proof.
  split; [reflexivity|]. split; [reflexivity|].
  exact (@update_rejects_empty_name ImageExample.later Catalogue.st
           Catalogue.id1 1%N [("name", VStr [])] None
           eq_refl eq_refl (or_introl eq_refl)).
Defined.

(** ** Deleting, again and after creating *)

Lemma delete_cases (st : db) (id : jsstring) (r : response) (st' : db) :
  delete_product st id = Some (r, st') ->
  (st' = st
   /\ (r = respond 404 (Message "Product not found")
       \/ r = respond 500 (Message "Failed to delete the product")))
  \/ exists i d,
      parseObjectId id = Some i
      /\ lookup st i = Some d
      /\ r = respond 200 (Message "Product deleted successfully")
      /\ st' = {| products := remove_first i (products st);
                  reviews := filter (fun r => negb (N.eqb (productId r) i))
                                    (reviews st);
                  users := users st |}.
Proof.
  unfold delete_product, Products_findByIdAndDelete, Reviews_deleteMany.
  intros H.
  destruct (castParam id) as [i| |] eqn:Ei; simpl in H; [| |discriminate].
  - apply castParam_Done in Ei.
    destruct (lookup st i) as [d|] eqn:El; simpl in H; inversion H; subst.
    + right. now exists i, d.
    + left. split; [reflexivity|now left].
  - inversion H. left. split; [reflexivity|now right].
Qed.

(** X11.  Deleting the same id a second time finds nothing: after a delete
    answered 200, the same request answers 404 and changes nothing. *)
Theorem delete_twice (st : db) (id : jsstring) (r : response) (st' : db) :
  ids_unique st ->
  delete_product st id = Some (r, st') ->
  status r = 200%Z ->
  delete_product st' id
  = Some (respond 404 (Message "Product not found"), st').
Proof.
  intros Hu H Hs.
  apply delete_cases in H
    as [(_ & [-> | ->])|(i & d & Hid & Hl & _ & ->)]; try discriminate.
  assert (Hnone : lookup {| products := remove_first i (products st);
                            reviews := filter (fun r0 => negb (N.eqb (productId r0) i))
                                              (reviews st);
                            users := users st |} i = None).
  { apply lookup_None. simpl. intros x Hx.
    now apply remove_first_In in Hx. }
  unfold delete_product, Products_findByIdAndDelete.
  erewrite castParam_Some by eassumption. simpl. now rewrite Hnone.
Qed.

Lemma delete_twice_witness :
  ids_unique Catalogue.st
  /\ exists st',
      delete_product Catalogue.st Catalogue.id1
      = Some (respond 200 (Message "Product deleted successfully"), st')
      /\ delete_product st' Catalogue.id1
         = Some (respond 404 (Message "Product not found"), st').
Proof.
  assert (Hu : ids_unique Catalogue.st).
  { unfold ids_unique. simpl. repeat constructor; simpl; intuition discriminate. }
  split; [exact Hu|].
  eexists. split; [vm_compute; reflexivity|].
  eapply (@delete_twice Catalogue.st Catalogue.id1 _ _ Hu);
    [vm_compute; reflexivity|reflexivity].
Defined.

Lemma remove_first_app_new (i : oid) (l : list product) (d : product) :
  find (fun x => N.eqb (_id x) i) l = None -> _id d = i ->
  remove_first i (l ++ [d]) = l.
Proof.
  intros Hl Hd. induction l as [|x l IH]; simpl in *.
  - rewrite Hd, N.eqb_refl. reflexivity.
  - destruct (N.eqb (_id x) i); [discriminate|]. now rewrite IH.
Qed.

(** X12.  Deleting what was just created undoes the creation: the
    collection of products is again the one before the create, the users
    are untouched, and the reviews are the earlier ones without those that
    pointed at the new id. *)
Theorem create_then_delete (rt : runtime) (st : db) (req_body : object)
        (d : product) (st1 : db) (id : jsstring) :
  create_product rt st req_body = Some (respond 201 (Saved d), st1) ->
  parseObjectId id = Some (newId rt) ->
  exists st2,
    delete_product st1 id
    = Some (respond 200 (Message "Product deleted successfully"), st2)
    /\ products st2 = products st
    /\ users st2 = users st
    /\ reviews st2
       = filter (fun r => negb (N.eqb (productId r) (newId rt))) (reviews st).
Proof.
  intros Hc Hid.
  apply create_201 in Hc as (d0 & Hd & Hsave); [|reflexivity].
  simpl in Hd. inversion Hd; subst d0; clear Hd.
  apply save_Done in Hsave as (_ & _ & Hnew & _ & Hfresh & ->).
  assert (Hl : lookup {| products := products st ++ [d];
                         reviews := reviews st; users := users st |}
                      (newId rt) = Some d).
  { rewrite <- Hnew. apply lookup_app_new. rewrite Hnew. exact Hfresh. }
  unfold delete_product, Products_findByIdAndDelete, Reviews_deleteMany.
  erewrite castParam_Some by eassumption. simpl. rewrite Hl.
  simpl. eexists. split; [reflexivity|]. simpl.
  split; [|split; reflexivity].
  now apply remove_first_app_new.
Qed.

Lemma create_then_delete_witness :
  parseObjectId ImageExample.id1 = Some (newId CreateExample.rt)
  /\ exists st2,
      delete_product {| products := [CreateExample.saved]; reviews := [];
                        users := [] |} ImageExample.id1
      = Some (respond 200 (Message "Product deleted successfully"), st2)
      /\ products st2 = products CreateExample.st0.
Proof.
  split; [reflexivity|].
  destruct (@create_then_delete CreateExample.rt CreateExample.st0
              CreateExample.req_body CreateExample.saved _ ImageExample.id1
              ltac:(vm_compute; reflexivity) eq_refl)
    as (st2 & Hd & Hp & _).
  exists st2. split; assumption.
Defined.

(** ** What every call keeps *)

Lemma get_products_reads (st : db) (q : params) (r : response) (st' : db) :
  get_products st q = Some (r, st') -> st' = st /\ status r = 200%Z.
Proof.
  unfold get_products.
  destruct (parseInt_default (param q "page") 1) as [page|]; [|discriminate].
  destruct (parseInt_default (param q "limit") 10) as [limit|]; [|discriminate].
  destruct (Z.leb 1 page && Z.leb 1 limit); [|discriminate].
  intros H. inversion H. now split.
Qed.

Lemma get_product_reads (st : db) (id : jsstring) (r : response) (st' : db) :
  get_product st id = Some (r, st') -> st' = st.
Proof.
  unfold get_product, Products_findById, Reviews_find. intros H.
  destruct (castParam id) as [i| |]; simpl in H; [| |discriminate].
  - destruct (lookup st i); simpl in H; now inversion H.
  - now inversion H.
Qed.

Lemma related_cases (st : db) (id : jsstring) (r : response) (st' : db) :
  related st id = Some (r, st') ->
  st' = st
  /\ (status r = 200%Z ->
      exists i target re,
        parseObjectId id = Some i
        /\ lookup st i = Some target
        /\ sent r
           = Related (filter (related_to i re (Document_get target "category"))
                             (products st))).
Proof.
  unfold related, Products_findById. intros H.
  destruct id as [|c id]; [inversion H; split; [reflexivity|discriminate]|].
  destruct (castParam (c :: id)) as [i| |] eqn:Ei; simpl in H;
    [| |discriminate].
  - apply castParam_Done in Ei.
    destruct (lookup st i) as [target|] eqn:El; simpl in H.
    + destruct (RegExp_new _) as [re| |]; simpl in H; [| |discriminate].
      * inversion H; subst. split; [reflexivity|]. intros _.
        now exists i, target, re.
      * inversion H; subst. split; [reflexivity|discriminate].
    + inversion H; subst. split; [reflexivity|discriminate].
  - inversion H; subst. split; [reflexivity|discriminate].
Qed.

Lemma requiredString_nonempty (v : option jsstring) (s : jsstring) :
  requiredString v = Done s -> s <> [].
Proof.
  destruct v as [[|c t]|]; simpl; intros H; try discriminate.
  inversion H. discriminate.
Qed.

Lemma save_named (rt : runtime) (st : db) (o : object) (d : product) (st' : db) :
  save rt st o = Done (d, st') -> name d <> [] /\ description d <> [].
Proof.
  unfold save. intros H. invert_bind H.
  apply requiredString_nonempty in Hx3, Hx4.
  destruct (lookup st (newId rt)); simpl in Hx7; try discriminate.
  inversion H; subst; simpl. now split.
Qed.

Lemma set_path_named (o : object) (k : string) (r : option jsstring) :
  set_path o k castString requiredString = Done r ->
  forall s, r = Some s -> s <> [].
Proof.
  intros H s ->.
  apply set_path_Done in H as [[_ H]|(c & b & _ & Hv & H)]; [discriminate|].
  inversion H; subst b. now apply requiredString_nonempty in Hv.
Qed.

Lemma create_outcomes (rt : runtime) (st : db) (req_body : object)
      (r : response) (st' : db) :
  create_product rt st req_body = Some (r, st') ->
  (st' = st
   /\ (r = respond 400 (Message msg_required)
       \/ r = respond 500 (Message msg_create_failed)))
  \/ exists d,
      r = respond 201 (Saved d)
      /\ save rt st (Products_new
                       (newProduct_fields (get req_body "name")
                          (get req_body "description") (get req_body "image")
                          (get req_body "author"))) = Done (d, st').
Proof.
  unfold create_product. intros H.
  destruct (negb (truthy (get req_body "name")) || _ || _ || _).
  - inversion H. left. split; [reflexivity|now left].
  - destruct (save rt st _) as [[d st1]| |] eqn:E; simpl in H;
      inversion H; subst.
    + right. now exists d.
    + left. split; [reflexivity|now right].
Qed.

(** The shape of one call: the store is left alone, or a document is
    appended (201), or one is replaced by its update (200), or one is
    removed together with its reviews (200). *)
Lemma handle_cases (st : db) (c : call) (r : response) (st' : db) :
  handle st c = Some (r, st') ->
  st' = st
  \/ (exists d,
         status r = 201%Z
         /\ products st' = products st ++ [d]
         /\ reviews st' = reviews st /\ users st' = users st
         /\ extra d = [] /\ name d <> [] /\ description d <> []
         /\ lookup st (_id d) = None)
  \/ (exists d d',
         status r = 200%Z
         /\ In d (products st) /\ _id d' = _id d /\ extra d' = extra d
         /\ (name d <> [] -> name d' <> [])
         /\ (description d <> [] -> description d' <> [])
         /\ products st' = replace d' (products st)
         /\ reviews st' = reviews st /\ users st' = users st)
  \/ (exists i,
         status r = 200%Z
         /\ products st' = remove_first i (products st)
         /\ reviews st'
            = filter (fun x => negb (N.eqb (productId x) i)) (reviews st)
         /\ users st' = users st).
Proof.
  destruct c as [rt req_body|q|id|rt id req_body req_file|id|id]; simpl;
    intros H.
  - apply create_outcomes in H as [(-> & _)|(d & -> & Hsave)]; [now left|].
    right. left. exists d.
    pose proof (save_named _ _ _ Hsave) as [Hn Hd].
    apply save_Done in Hsave as (_ & _ & Hid & He & Hfresh & ->).
    rewrite Hid. simpl. repeat split; assumption.
  - apply get_products_reads in H as [-> _]. now left.
  - apply get_product_reads in H as ->. now left.
  - apply update_cases in H
      as [(-> & _)|(i & c & d & Hid & Hc & Hl & -> & ->)]; [now left|].
    right. right. left. exists d, (apply_changes rt c d).
    apply lookup_In in Hl as [Hin _].
    apply castUpdate_Done in Hc as (Hn & Hd & _ & _).
    simpl. repeat split; try assumption; try reflexivity.
    + intros Hnd. destruct (set_name c) as [s|] eqn:Es; simpl; [|exact Hnd].
      eapply set_path_named; [exact Hn|reflexivity].
    + intros Hnd. destruct (set_description c) as [s|] eqn:Es; simpl;
        [|exact Hnd].
      eapply set_path_named; [exact Hd|reflexivity].
  - apply delete_cases in H as [(-> & _)|(i & d & _ & _ & -> & ->)];
      [now left|].
    right. right. right. exists i. simpl. repeat split.
  - apply related_cases in H as [-> _]. now left.
Qed.

Lemma run_calls_invariant (P : db -> Prop) :
  (forall st c r st', P st -> handle st c = Some (r, st') -> P st') ->
  forall cs st st', P st -> run_calls st cs = Some st' -> P st'.
Proof.
  intros Hstep. induction cs as [|c cs IH]; simpl; intros st st' HP Hrun.
  - now inversion Hrun; subst.
  - destruct (handle st c) as [[r st1]|] eqn:Eh; [|discriminate].
    eapply IH; [|exact Hrun]. eapply Hstep; eassumption.
Qed.

Lemma remove_first_incl (i : oid) (l : list product) (x : product) :
  In x (remove_first i l) -> In x l.
Proof.
  induction l as [|y l IH]; simpl; [tauto|].
  destruct (N.eqb (_id y) i); simpl; [now right|].
  intros [->|H]; [now left|right; now apply IH].
Qed.

Lemma session_runs : run_calls CreateExample.st0 Session.calls = Some Session.final.
Proof. vm_compute. reflexivity. Qed.

(** X13.  Ids stay unique: whatever sequence of calls the router serves,
    a collection in which no two products share an id remains one. *)
Theorem router_keeps_ids (st : db) (cs : list call) (st' : db) :
  ids_unique st -> run_calls st cs = Some st' -> ids_unique st'.
Proof.
  intros Hu0 Hrun.
  refine (@run_calls_invariant ids_unique _ cs st st' Hu0 Hrun).
  clear. unfold ids_unique. intros st c r st' Hu H.
  apply handle_cases in H
    as [->|[(d & _ & Hp & _ & _ & _ & _ & _ & Hfresh)
           |[(d & d' & _ & _ & _ & _ & _ & _ & Hp & _)
            |(i & _ & Hp & _)]]]; rewrite ?Hp.
  - exact Hu.
  - rewrite map_app. simpl.
    eapply Permutation_NoDup; [apply Permutation_cons_append|].
    constructor; [|exact Hu].
    intros Hin. apply in_map_iff in Hin as (y & Hy & Hin).
    rewrite lookup_None in Hfresh. now apply (Hfresh y Hin).
  - now rewrite replace_ids.
  - now apply remove_first_NoDup.
Qed.

Lemma router_keeps_ids_witness :
  ids_unique CreateExample.st0
  /\ run_calls CreateExample.st0 Session.calls = Some Session.final
  /\ ids_unique Session.final.
Proof.
  assert (H0 : ids_unique CreateExample.st0) by constructor.
  split; [exact H0|]. split; [exact session_runs|].
  exact (@router_keeps_ids CreateExample.st0 Session.calls Session.final
           H0 session_runs).
Defined.

(** X14.  Names and descriptions stay non-empty: create stores none that
    is empty, update refuses to set one to the empty string, and no other
    call writes them. *)
Theorem router_keeps_names (st : db) (cs : list call) (st' : db) :
  named st -> run_calls st cs = Some st' -> named st'.
Proof.
  intros Hn0 Hrun.
  refine (@run_calls_invariant named _ cs st st' Hn0 Hrun).
  clear. unfold named. intros st c r st' Hn H.
  apply handle_cases in H
    as [->|[(d & _ & Hp & _ & _ & _ & Hnd & Hdd & _)
           |[(d & d' & _ & Hin & _ & _ & Hnd & Hdd & Hp & _)
            |(i & _ & Hp & _)]]]; rewrite ?Hp.
  - exact Hn.
  - apply Forall_app. split; [exact Hn|]. now repeat constructor.
  - apply replace_Forall; [exact Hn|].
    rewrite Forall_forall in Hn. destruct (Hn d Hin) as [H1 H2].
    split; [now apply Hnd|now apply Hdd].
  - rewrite Forall_forall in Hn |- *. intros x Hx.
    apply Hn. eapply remove_first_incl; eassumption.
Qed.

Lemma router_keeps_names_witness :
  named CreateExample.st0
  /\ run_calls CreateExample.st0 Session.calls = Some Session.final
  /\ named Session.final.
Proof.
  assert (H0 : named CreateExample.st0) by constructor.
  split; [exact H0|]. split; [exact session_runs|].
  exact (@router_keeps_names CreateExample.st0 Session.calls Session.final
           H0 session_runs).
Defined.

Lemma replace_In (d' x : product) (l : list product) :
  In x (replace d' l) ->
  In x l \/ (x = d' /\ exists y, In y l /\ _id y = _id d').
Proof.
  unfold replace. intros H. apply in_map_iff in H as (y & Hy & Hin).
  destruct (N.eqb (_id y) (_id d')) eqn:E.
  - right. split; [congruence|]. exists y. split; [exact Hin|].
    now apply N.eqb_eq.
  - left. congruence.
Qed.

(** X15.  No call writes a field outside the schema.  After any sequence
    of calls, each stored product either has no such field at all, or has
    exactly those that the product with its id had at the start: a
    category, a price or a quantity can neither appear nor change through
    the router. *)
Theorem router_adds_no_fields (st : db) (cs : list call) (st' : db) :
  run_calls st cs = Some st' -> no_new_fields st st'.
Proof.
  intros Hrun.
  assert (H0 : no_new_fields st st).
  { intros d Hd. right. now exists d. }
  refine (@run_calls_invariant (no_new_fields st) _ cs st st' H0 Hrun).
  clear. unfold no_new_fields. intros st1 c r st' Hinv H.
  apply handle_cases in H
    as [->|[(d & _ & Hp & _ & _ & He & _)
           |[(d & d' & _ & Hin & Hid & He & _ & _ & Hp & _)
            |(i & _ & Hp & _)]]]; rewrite ?Hp.
  - exact Hinv.
  - intros x Hx. apply in_app_or in Hx as [Hx|[<-|[]]].
    + now apply Hinv.
    + now left.
  - intros x Hx. apply replace_In in Hx as [Hx|[-> _]].
    + now apply Hinv.
    + destruct (Hinv d Hin) as [Hnil|(d0 & Hd0 & Hid0 & He0)].
      * left. congruence.
      * right. exists d0. split; [exact Hd0|]. split; congruence.
  - intros x Hx. apply Hinv. eapply remove_first_incl; eassumption.
Qed.

Lemma router_adds_no_fields_witness :
  run_calls CreateExample.st0 Session.calls = Some Session.final
  /\ no_new_fields CreateExample.st0 Session.final
  /\ Forall (fun d => field d "price" = VUndefined) (products Session.final).
Proof.
  split; [exact session_runs|]. split.
  - exact (@router_adds_no_fields CreateExample.st0 Session.calls
             Session.final session_runs).
  - repeat constructor.
Defined.

(** X16.  The router never writes a user and never adds or alters a
    review: after any sequence of calls the users are those of the start,
    and every review is one of the start. *)
Theorem router_leaves_users_and_reviews (st : db) (cs : list call) (st' : db) :
  run_calls st cs = Some st' ->
  users st' = users st /\ incl (reviews st') (reviews st).
Proof.
  intros Hrun.
  assert (H0 : users st = users st /\ incl (reviews st) (reviews st))
    by (split; [reflexivity|apply incl_refl]).
  refine (@run_calls_invariant
            (fun s => users s = users st /\ incl (reviews s) (reviews st))
            _ cs st st' H0 Hrun).
  clear. intros st1 c r st' [Hu Hr] H.
  apply handle_cases in H
    as [->|[(d & _ & _ & Hrv & Hus & _)
           |[(d & d' & _ & _ & _ & _ & _ & _ & _ & Hrv & Hus)
            |(i & _ & _ & Hrv & Hus)]]]; rewrite ?Hrv, ?Hus.
  - now split.
  - now split.
  - now split.
  - split; [exact Hu|]. intros x Hx. apply filter_In in Hx as [Hx _].
    now apply Hr.
Qed.

Lemma router_leaves_users_and_reviews_witness :
  exists st',
    run_calls Catalogue.st
      [DeleteProduct Catalogue.id1; GetProduct Catalogue.id1] = Some st'
    /\ users st' = users Catalogue.st
    /\ reviews st' = [Catalogue.review2]
    /\ incl (reviews st') (reviews Catalogue.st).
Proof.
  eexists. split; [vm_compute; reflexivity|].
  destruct (@router_leaves_users_and_reviews Catalogue.st
              [DeleteProduct Catalogue.id1; GetProduct Catalogue.id1] _
              ltac:(vm_compute; reflexivity)) as [Hu Hr].
  split; [exact Hu|]. split; [reflexivity|exact Hr].
Defined.

(** X17.  An answer that reports a failure leaves the store as it was:
    whenever a call is answered with a status of 400 or more, nothing was
    written. *)
Theorem errors_change_nothing (st : db) (c : call) (r : response) (st' : db) :
  handle st c = Some (r, st') -> (400 <= status r)%Z -> st' = st.
Proof.
  intros H Hs.
  apply handle_cases in H
    as [->|[(d & H201 & _)|[(d & d' & H200 & _)|(i & H200 & _)]]];
    [reflexivity|lia|lia|lia].
Qed.

Lemma errors_change_nothing_witness :
  handle Catalogue.st (DeleteProduct Catalogue.id9)
  = Some (respond 404 (Message "Product not found"), Catalogue.st)
  /\ (400 <= 404)%Z.
Proof.
  assert (H : exists st',
             handle Catalogue.st (DeleteProduct Catalogue.id9)
             = Some (respond 404 (Message "Product not found"), st'))
    by (eexists; vm_compute; reflexivity).
  destruct H as [st' H].
  assert (Hs : (400 <= status (respond 404 (Message "Product not found")))%Z)
    by (simpl; lia).
  pose proof (@errors_change_nothing Catalogue.st (DeleteProduct Catalogue.id9)
                _ st' H Hs) as Heq.
  subst st'. split; [exact H|lia].
Defined.

(** ** More on the listing *)

(** X18.  The size of a page.  For a page and a limit from 1 up, the page
    holds limit products, or what is left of the matching ones after the
    skip when that is less, and never a negative number; it is non-empty
    exactly when the page number does not exceed totalPages. *)
Theorem page_size (st : db) (q : params) (page limit : Z) :
  parseInt_default (param q "page") 1 = Some page ->
  parseInt_default (param q "limit") 10 = Some limit ->
  (1 <= page)%Z -> (1 <= limit)%Z ->
  exists products totalPages totalProducts,
    get_products st q
    = Some (respond 200 (Page products totalPages totalProducts), st)
    /\ Z.of_nat (List.length products)
       = Z.max 0 (Z.min limit (totalProducts - (page - 1) * limit))
    /\ (products <> [] <-> (page <= totalPages)%Z).
Proof.
  intros Hp Hl H1 H2.
  do 3 eexists. split; [apply get_products_200; eassumption|].
  set (found := filter (matches (build_filter q)) (products st)).
  assert (Hpos : (0 < limit)%Z) by lia.
  pose proof (@Math_ceil_quotient
                (Products_countDocuments st (build_filter q)) limit Hpos)
    as Hceil.
  cbv zeta in Hceil.
  set (tp := Math_ceil _) in *.
  unfold Products_countDocuments in *. fold found in Hceil |- *.
  assert (Hlen : Z.of_nat
                   (List.length
                      (map (populate st author ["email"])
                         (firstn (Z.to_nat limit)
                            (skipn (Z.to_nat ((page - 1) * limit))
                               (Query.sort_desc found)))))
                 = Z.max 0 (Z.min limit
                              (Z.of_nat (List.length found) - (page - 1) * limit))).
  { rewrite length_map, length_firstn, length_skipn.
    rewrite (Permutation_length (sort_desc_perm found)). nia. }
  split; [exact Hlen|].
  split.
  - intros Hne.
    destruct (map _ _) as [|x l] eqn:E; [congruence|].
    simpl in Hlen. nia.
  - intros Hle Hnil. rewrite Hnil in Hlen. simpl in Hlen. nia.
Qed.

Lemma page_size_witness :
  parseInt_default (param [("page", js "2"); ("limit", js "3")] "page") 1
  = Some 2%Z
  /\ exists products,
      get_products Catalogue.st [("page", js "2"); ("limit", js "3")]
      = Some (respond 200 (Page products 2 4), Catalogue.st)
      /\ List.length products = 1%nat.
Proof.
  split; [reflexivity|].
  destruct (@page_size Catalogue.st [("page", js "2"); ("limit", js "3")]
              2 3 eq_refl eq_refl ltac:(lia) ltac:(lia))
    as (products & tp & total & Hg & Hlen & _).
  assert (Hc : get_products Catalogue.st [("page", js "2"); ("limit", js "3")]
               = Some (respond 200
                         (Page [populate Catalogue.st author ["email"]
                                  Catalogue.red_shoes] 2 4), Catalogue.st))
    by (vm_compute; reflexivity).
  rewrite Hc in Hg. inversion Hg; subst.
  eexists. split; [reflexivity|reflexivity].
Defined.

(** X19.  The value "all" and the empty value of category or color mean no
    filter: adding either to a query that has no such parameter changes
    nothing in the answer. *)
Theorem all_means_no_filter (st : db) (q : params) (k : string) (v : jsstring) :
  k = "category" \/ k = "color" ->
  v = js "all" \/ v = [] ->
  param q k = None ->
  get_products st ((k, v) :: q) = get_products st q.
Proof.
  intros Hk Hv Habs.
  assert (Hf : build_filter ((k, v) :: q) = build_filter q).
  { unfold build_filter.
    destruct Hk as [-> | ->]; destruct Hv as [-> | ->];
      simpl param; rewrite Habs; reflexivity. }
  unfold get_products. rewrite Hf.
  destruct Hk as [-> | ->]; reflexivity.
Qed.

Lemma all_means_no_filter_witness :
  param [("limit", js "2")] "category" = None
  /\ get_products Catalogue.st [("category", js "all"); ("limit", js "2")]
     = get_products Catalogue.st [("limit", js "2")]
  /\ listed (get_products Catalogue.st [("limit", js "2")])
     = [Catalogue.lamp; Catalogue.hat].
Proof.
  split; [reflexivity|]. split.
  - exact (@all_means_no_filter Catalogue.st [("limit", js "2")] "category"
             (js "all") (or_introl eq_refl) (or_introl eq_refl) eq_refl).
  - reflexivity.
Defined.

Lemma field_without_extra (d : product) (k : string) :
  extra d = [] ->
  declares ProductSchema k = false ->
  existsb (String.eqb k) implicit_paths = false ->
  field d k = VUndefined.
Proof.
  intros He Hk Hi. unfold field, toObject. rewrite He. simpl.
  unfold declares in Hk. simpl in Hk, Hi.
  repeat match type of Hk with
         | (?a || ?b)%bool = false => apply orb_false_iff in Hk as [? Hk]
         end.
  repeat match type of Hi with
         | (?a || ?b)%bool = false => apply orb_false_iff in Hi as [? Hi]
         end.
  repeat match goal with
         | H : String.eqb k _ = false |- _ => rewrite H; clear H
         end.
  reflexivity.
Qed.

(** X20.  Filters on category, color or price find nothing among products
    that carry no field outside the schema, which is how create stores
    them: with such a filter the listing of such a store is empty, with
    both totals 0. *)
Theorem filters_need_stored_fields (st : db) (q : params) (page limit : Z) :
  Forall (fun d => extra d = []) (products st) ->
  where_category (build_filter q) <> None
  \/ where_color (build_filter q) <> None
  \/ where_price (build_filter q) <> None ->
  parseInt_default (param q "page") 1 = Some page ->
  parseInt_default (param q "limit") 10 = Some limit ->
  (1 <= page)%Z -> (1 <= limit)%Z ->
  get_products st q = Some (respond 200 (Page [] 0 0), st).
Proof.
  intros Hex Hflt Hp Hl H1 H2.
  assert (Hnone : filter (matches (build_filter q)) (products st) = []).
  { rewrite Forall_forall in Hex.
    induction (products st) as [|d l IH]; [reflexivity|]. simpl.
    assert (Hm : matches (build_filter q) d = false).
    { assert (He : extra d = []) by (apply Hex; now left).
      unfold matches.
      rewrite (@field_without_extra d "category" He eq_refl eq_refl),
        (@field_without_extra d "color" He eq_refl eq_refl),
        (@field_without_extra d "price" He eq_refl eq_refl).
      destruct (where_category (build_filter q)) as [c|];
        [now destruct c|].
      destruct (where_color (build_filter q)) as [c|];
        [now destruct c|].
      destruct (where_price (build_filter q)) as [[lo hi]|];
        [reflexivity|].
      destruct Hflt as [H|[H|H]]; congruence. }
    rewrite Hm. apply IH. intros x Hx. apply Hex. now right. }
  rewrite (get_products_200 st q Hp Hl H1 H2).
  unfold Products_countDocuments. rewrite Hnone. simpl.
  assert (Hz : Math_ceil (inject_Z 0 / inject_Z limit) = 0%Z).
  { assert (Hpos : (0 < limit)%Z) by lia.
    pose proof (@Math_ceil_quotient 0 limit Hpos) as Hc.
    cbv zeta in Hc. nia. }
  rewrite Hz. rewrite skipn_nil, firstn_nil. reflexivity.
Qed.

Lemma filters_need_stored_fields_witness :
  Forall (fun d => extra d = []) (products Session.final)
  /\ where_category (build_filter [("category", js "footwear")]) <> None
  /\ get_products Session.final [("category", js "footwear")]
     = Some (respond 200 (Page [] 0 0), Session.final)
  /\ listed (get_products Session.final []) = products Session.final.
Proof.
  assert (He : Forall (fun d => extra d = []) (products Session.final))
    by (repeat constructor).
  assert (Hc : where_category (build_filter [("category", js "footwear")])
               <> None) by (vm_compute; discriminate).
  split; [exact He|]. split; [exact Hc|]. split; [|reflexivity].
  exact (@filters_need_stored_fields Session.final
           [("category", js "footwear")] 1 10 He (or_introl Hc)
           eq_refl eq_refl ltac:(lia) ltac:(lia)).
Defined.

Lemma save_stamps (rt : runtime) (st : db) (o : object) (d : product) (st' : db) :
  save rt st o = Done (d, st') ->
  createdAt d = now rt /\ updatedAt d = now rt /\ __v d = 0%Z.
Proof.
  unfold save. intros H. invert_bind H.
  destruct (lookup st (newId rt)); simpl in Hx7; try discriminate.
  inversion H; subst; simpl. now repeat split.
Qed.

Lemma sort_desc_newest_last (l : list product) (d : product) :
  Forall (fun x => (createdAt x < createdAt d)%Z) l ->
  Query.sort_desc (l ++ [d]) = d :: Query.sort_desc l.
Proof.
  induction 1 as [|x l Hx Hl IH]; [reflexivity|].
  simpl. rewrite IH. simpl.
  destruct (Z.leb (createdAt d) (createdAt x)) eqn:E; [|reflexivity].
  apply Z.leb_le in E. lia.
Qed.

Lemma filter_all {A} (f : A -> bool) (l : list A) :
  (forall x, f x = true) -> filter f l = l.
Proof.
  intros Hf. induction l as [|x l IH]; simpl; [reflexivity|].
  now rewrite Hf, IH.
Qed.

(** X21.  Newest first: a product created after all the stored ones comes
    first in the default listing that follows, ahead of the earlier
    products in their own order, the whole cut at the default limit
    of 10. *)
Theorem created_tops_listing (rt : runtime) (st : db) (req_body : object)
        (d : product) (st' : db) :
  create_product rt st req_body = Some (respond 201 (Saved d), st') ->
  Forall (fun x => (createdAt x < now rt)%Z) (products st) ->
  listed (get_products st' [])
  = firstn 10 (d :: Query.sort_desc (products st)).
Proof.
  intros Hc Hold.
  apply create_201 in Hc as (d0 & Hd & Hsave); [|reflexivity].
  simpl in Hd. inversion Hd; subst d0; clear Hd.
  pose proof (save_stamps _ _ _ Hsave) as [Hcr _].
  apply save_Done in Hsave as (_ & _ & _ & _ & _ & ->).
  rewrite (@get_products_200 _ [] 1 10 eq_refl eq_refl ltac:(lia) ltac:(lia)).
  unfold listed. simpl sent. cbv iota beta.
  rewrite map_map. simpl doc. rewrite map_id.
  rewrite filter_all by reflexivity. simpl products.
  rewrite sort_desc_newest_last by (rewrite Hcr; exact Hold).
  reflexivity.
Qed.

Lemma created_tops_listing_witness :
  exists d st',
    create_product ListingExample.rt Catalogue.st CreateExample.req_body
    = Some (respond 201 (Saved d), st')
    /\ Forall (fun x => (createdAt x < now ListingExample.rt)%Z)
              (products Catalogue.st)
    /\ listed (get_products st' [])
       = [d; Catalogue.lamp; Catalogue.hat; Catalogue.blue_shoes;
          Catalogue.red_shoes].
Proof.
  assert (Hold : Forall (fun x => (createdAt x < now ListingExample.rt)%Z)
                        (products Catalogue.st))
    by (repeat constructor).
  do 2 eexists. split; [vm_compute; reflexivity|]. split; [exact Hold|].
  rewrite (@created_tops_listing ListingExample.rt Catalogue.st
             CreateExample.req_body _ _ ltac:(vm_compute; reflexivity) Hold).
  reflexivity.
Defined.

(** ** More on the related lookup *)

(** X22.  The related lookup never returns the product it was asked
    about, whatever its name: every 200 answer is a selection, in the
    collection's order, of stored products none of which has the
    requested id, and the store is unchanged. *)
Theorem related_never_returns_target (st : db) (id : jsstring)
        (l : list product) (st' : db) :
  related st id = Some (respond 200 (Related l), st') ->
  st' = st
  /\ exists i select,
      parseObjectId id = Some i
      /\ lookup st i <> None
      /\ l = filter select (products st)
      /\ forall d, In d l -> In d (products st) /\ _id d <> i.
Proof.
  intros H. apply related_cases in H as [-> Hr]. split; [reflexivity|].
  destruct (Hr eq_refl) as (i & target & re & Hid & Hl & Hs).
  simpl in Hs. inversion Hs; subst l.
  exists i, (related_to i re (Document_get target "category")).
  split; [exact Hid|]. split; [congruence|]. split; [reflexivity|].
  intros d Hd. apply filter_In in Hd as [Hin Hrel]. split; [exact Hin|].
  unfold related_to in Hrel. apply andb_true_iff in Hrel as [Hne _].
  now apply negb_true_iff, N.eqb_neq in Hne.
Qed.

Lemma related_never_returns_target_witness :
  related RelatedExample.st_single Catalogue.id1
  = Some (respond 200 (Related [Catalogue.blue_shoes; Catalogue.lamp]),
          RelatedExample.st_single)
  /\ forall d, In d [Catalogue.blue_shoes; Catalogue.lamp] -> _id d <> 1%N.
Proof.
  assert (H : related RelatedExample.st_single Catalogue.id1
              = Some (respond 200 (Related [Catalogue.blue_shoes; Catalogue.lamp]),
                      RelatedExample.st_single))
    by (vm_compute; reflexivity).
  split; [exact H|].
  destruct (@related_never_returns_target RelatedExample.st_single
              Catalogue.id1 _ _ H) as (_ & i & sel & Hid & _ & _ & Hall).
  vm_compute in Hid. inversion Hid; subst i.
  intros d Hd. now apply Hall.
Defined.

(** ** Ids that are not ObjectIds *)

Lemma castParam_malformed (id : jsstring) :
  parseObjectId id = None -> List.length id <> 12%nat ->
  castParam id = Thrown.
Proof.
  unfold castParam, castObjectIdString. intros -> Hlen.
  apply Nat.eqb_neq in Hlen. now rewrite Hlen.
Qed.

(** X23.  A route parameter that is not an ObjectId (not 24 hexadecimal
    digits, and not 12 characters long) is answered 500, not 404, by
    every route that takes an id, and nothing is changed: the cast of the
    id throws before any lookup.  The one exception is the empty parameter
    of the related lookup, answered 400. *)
Theorem malformed_id_is_500 (rt : runtime) (st : db) (id : jsstring)
        (req_body : object) (req_file : option jsstring) :
  parseObjectId id = None ->
  List.length id <> 12%nat ->
  get_product st id
  = Some (respond 500 (Message "Failed to fetch the product"), st)
  /\ delete_product st id
     = Some (respond 500 (Message "Failed to delete the product"), st)
  /\ update_product rt st id req_body req_file
     = Some (respond 500 (Failure msg_update_failed), st)
  /\ related st id
     = Some (match id with
             | [] => respond 400 (Message "Product ID is required")
             | _ => respond 500 (Message "Failed to fetch related products")
             end, st).
Proof.
  intros Hid Hlen. pose proof (castParam_malformed id Hid Hlen) as Hc.
  unfold get_product, delete_product, update_product, related,
    Products_findById, Products_findByIdAndDelete, Products_findByIdAndUpdate.
  rewrite Hc. simpl. repeat split.
  destruct id; reflexivity.
Qed.

Lemma malformed_id_is_500_witness :
  parseObjectId (js "abc") = None
  /\ List.length (js "abc") <> 12%nat
  /\ delete_product Catalogue.st (js "abc")
     = Some (respond 500 (Message "Failed to delete the product"),
             Catalogue.st).
Proof.
  assert (Hid : parseObjectId (js "abc") = None) by reflexivity.
  assert (Hlen : List.length (js "abc") <> 12%nat) by discriminate.
  split; [exact Hid|]. split; [exact Hlen|].
  exact (proj1 (proj2 (@malformed_id_is_500 ImageExample.later Catalogue.st
                         (js "abc") [] None Hid Hlen))).
Defined.

(** ** Listing after a write *)

Lemma insert_desc_map (f : product -> product) (d : product)
      (l : list product) :
  createdAt (f d) = createdAt d ->
  (forall x, In x l -> createdAt (f x) = createdAt x) ->
  Query.insert_desc (f d) (map f l) = map f (Query.insert_desc d l).
Proof.
  intros Hd. induction l as [|x l IH]; simpl; intros Hl; [reflexivity|].
  rewrite Hd, (Hl x (or_introl eq_refl)).
  destruct (Z.leb (createdAt x) (createdAt d)); simpl; [reflexivity|].
  rewrite IH; [reflexivity|]. intros y Hy. apply Hl. now right.
Qed.

Lemma sort_desc_map (f : product -> product) (l : list product) :
  (forall x, In x l -> createdAt (f x) = createdAt x) ->
  Query.sort_desc (map f l) = map f (Query.sort_desc l).
Proof.
  induction l as [|x l IH]; simpl; intros Hl; [reflexivity|].
  rewrite IH by (intros y Hy; apply Hl; now right).
  apply insert_desc_map; [apply Hl; now left|].
  intros y Hy. apply Hl. right.
  eapply Permutation_in; [apply sort_desc_perm|exact Hy].
Qed.

Lemma filter_map_same {A} (p : A -> bool) (f : A -> A) (l : list A) :
  (forall x, In x l -> p (f x) = p x) ->
  filter p (map f l) = map f (filter p l).
Proof.
  induction l as [|x l IH]; simpl; intros Hl; [reflexivity|].
  rewrite (Hl x (or_introl eq_refl)).
  rewrite IH by (intros y Hy; apply Hl; now right).
  now destruct (p x).
Qed.

Lemma matches_extra (flt : conditions) (d d' : product) :
  extra d' = extra d -> matches flt d' = matches flt d.
Proof.
  intros He. unfold matches, field, toObject. simpl. now rewrite He.
Qed.

Lemma unique_lookup (st : db) (i : oid) (d x : product) :
  ids_unique st -> lookup st i = Some d -> In x (products st) -> _id x = i ->
  x = d.
Proof.
  unfold ids_unique, lookup. intros Hu Hl Hx Hid.
  induction (products st) as [|y l IH]; [destruct Hx|].
  simpl in Hu, Hl. inversion Hu as [|? ? Hy Hnd]; subst.
  destruct (N.eqb (_id y) (_id x)) eqn:E.
  - inversion Hl; subst y. destruct Hx as [Hx|Hx]; [now symmetry|].
    apply N.eqb_eq in E. exfalso. apply Hy. rewrite E. now apply in_map.
  - destruct Hx as [Hx|Hx]; [subst y; now rewrite N.eqb_refl in E|].
    now apply IH.
Qed.

(** X24.  An update does not move a product in the listing.  Over a
    collection with unique ids, any listing asked after a successful
    update returns the products it would have returned before, in the
    same order and with the same totals, the updated product standing
    where the old one stood. *)
Theorem update_keeps_listing
        (rt : runtime) (st : db) (id : jsstring) (req_body : object)
        (req_file : option jsstring) (m : string) (d' : product) (st' : db)
        (q : params) :
  ids_unique st ->
  update_product rt st id req_body req_file
  = Some (respond 200 (Updated m d'), st') ->
  listed (get_products st' q)
  = map (fun x => if N.eqb (_id x) (_id d') then d' else x)
        (listed (get_products st q))
  /\ option_map (fun a => status (fst a)) (get_products st' q)
     = option_map (fun a => status (fst a)) (get_products st q).
Proof.
  intros Hu H.
  apply update_cases in H
    as [(_ & [Hr|Hr] & _)|(i & c & d & Hid & Hc & Hl & Hr & ->)];
    try discriminate.
  inversion Hr; subst m d'; clear Hr.
  set (d' := apply_changes rt c d).
  set (f := fun x => if N.eqb (_id x) (_id d') then d' else x).
  pose proof (lookup_In _ _ Hl) as [Hin Hidd].
  assert (Hsame : forall x, In x (products st) ->
                            createdAt (f x) = createdAt x
                            /\ extra (f x) = extra x).
  { intros x Hx. unfold f.
    destruct (N.eqb (_id x) (_id d')) eqn:E; [|now split].
    apply N.eqb_eq in E. simpl in E.
    assert (x = d) as -> by (eapply unique_lookup; eauto; congruence).
    now split. }
  assert (Hfound : forall flt,
             filter (matches flt) (map f (products st))
             = map f (filter (matches flt) (products st))).
  { intros flt. apply filter_map_same. intros x Hx.
    apply matches_extra. now apply Hsame. }
  assert (Hsorted : forall flt,
             Query.sort_desc (map f (filter (matches flt) (products st)))
             = map f (Query.sort_desc (filter (matches flt) (products st)))).
  { intros flt. apply sort_desc_map. intros x Hx.
    apply filter_In in Hx as [Hx _]. now apply Hsame. }
  unfold get_products.
  destruct (parseInt_default (param q "page") 1) as [page|]; [|now split].
  destruct (parseInt_default (param q "limit") 10) as [limit|]; [|now split].
  destruct (Z.leb 1 page && Z.leb 1 limit); [|now split].
  split; [|reflexivity].
  unfold listed, Query.exec. simpl.
  fold f. unfold replace. fold f.
  rewrite !map_map. simpl. rewrite !map_id.
  rewrite Hfound, Hsorted.
  now rewrite skipn_map, firstn_map.
Qed.

Lemma update_keeps_listing_witness :
  ids_unique Catalogue.st
  /\ exists d' st',
      update_product ImageExample.later Catalogue.st Catalogue.id1
        [("name", VStr (js "Trail shoes"))] None
      = Some (respond 200 (Updated msg_updated d'), st')
      /\ map _id (listed (get_products st' [])) = [4; 3; 2; 1]%N
      /\ map _id (listed (get_products Catalogue.st [])) = [4; 3; 2; 1]%N.
Proof.
  assert (Hu : ids_unique Catalogue.st).
  { unfold ids_unique. simpl. repeat constructor; simpl; intuition discriminate. }
  split; [exact Hu|].
  do 2 eexists. split; [vm_compute; reflexivity|].
  split; [|reflexivity].
  rewrite (proj1 (@update_keeps_listing ImageExample.later Catalogue.st
                    Catalogue.id1 [("name", VStr (js "Trail shoes"))] None
                    msg_updated _ _ [] Hu ltac:(vm_compute; reflexivity))).
  reflexivity.
Defined.

Lemma In_firstn_list {A} (n : nat) (l : list A) (x : A) :
  In x (firstn n l) -> In x l.
Proof.
  intros H. rewrite <- (firstn_skipn n l). apply in_or_app. now left.
Qed.

Lemma In_skipn_list {A} (n : nat) (l : list A) (x : A) :
  In x (skipn n l) -> In x l.
Proof.
  intros H. rewrite <- (firstn_skipn n l). apply in_or_app. now right.
Qed.

Lemma listed_stored (st : db) (q : params) (d : product) :
  In d (listed (get_products st q)) -> In d (products st).
Proof.
  unfold get_products, listed.
  destruct (parseInt_default (param q "page") 1) as [page|]; [|intros []].
  destruct (parseInt_default (param q "limit") 10) as [limit|]; [|intros []].
  destruct (Z.leb 1 page && Z.leb 1 limit); [|intros []].
  simpl. unfold Query.exec. simpl. rewrite map_map. simpl. rewrite map_id.
  intros H. apply In_firstn_list, In_skipn_list in H.
  eapply Permutation_in in H; [|apply sort_desc_perm].
  now apply filter_In in H.
Qed.

(** X25.  A deleted product is gone from every view.  After a delete
    answered 200 over a collection with unique ids, no listing, whatever
    its filter and page, and no related lookup returns a product with the
    deleted id, and fetching that id answers 404. *)
Theorem deleted_is_not_shown (st : db) (id : jsstring) (i : oid)
        (r : response) (st' : db) :
  ids_unique st ->
  parseObjectId id = Some i ->
  delete_product st id = Some (r, st') ->
  status r = 200%Z ->
  (forall q d, In d (listed (get_products st' q)) -> _id d <> i)
  /\ (forall id' l st'',
         related st' id' = Some (respond 200 (Related l), st'') ->
         forall d, In d l -> _id d <> i)
  /\ get_product st' id
     = Some (respond 404 (Message "Product not found"), st').
Proof.
  intros Hu Hid H Hs.
  apply delete_cases in H
    as [(_ & [-> | ->])|(i' & d & Hid' & Hl & _ & ->)]; try discriminate.
  assert (i' = i) by congruence. subst i'.
  assert (Hgone : forall x,
             In x (remove_first i (products st)) -> _id x <> i).
  { intros x Hx. now apply remove_first_In in Hx. }
  split; [|split].
  - intros q x Hx. apply listed_stored in Hx. now apply Hgone.
  - intros id' l st'' Hr x Hx.
    apply related_cases in Hr as [_ Hr].
    destruct (Hr eq_refl) as (j & target & re & _ & _ & Hsent).
    simpl in Hsent. inversion Hsent; subst l.
    apply filter_In in Hx as [Hx _]. now apply Hgone.
  - unfold get_product, Products_findById.
    erewrite castParam_Some by eassumption. simpl.
    assert (Hnone : lookup {| products := remove_first i (products st);
                              reviews := filter (fun r0 => negb (N.eqb (productId r0) i))
                                                (reviews st);
                              users := users st |} i = None).
    { apply lookup_None. simpl. exact Hgone. }
    now rewrite Hnone.
Qed.

Lemma deleted_is_not_shown_witness :
  ids_unique Catalogue.st
  /\ parseObjectId Catalogue.id1 = Some 1%N
  /\ exists st',
      delete_product Catalogue.st Catalogue.id1
      = Some (respond 200 (Message "Product deleted successfully"), st')
      /\ map _id (listed (get_products st' [])) = [4; 3; 2]%N
      /\ forall d, In d (listed (get_products st' [])) -> _id d <> 1%N.
Proof.
  assert (Hu : ids_unique Catalogue.st).
  { unfold ids_unique. simpl. repeat constructor; simpl; intuition discriminate. }
  split; [exact Hu|]. split; [reflexivity|].
  eexists. split; [vm_compute; reflexivity|]. split; [reflexivity|].
  intros d.
  exact (proj1 (@deleted_is_not_shown Catalogue.st Catalogue.id1 1%N _ _
                  Hu eq_refl ltac:(vm_compute; reflexivity) eq_refl) [] d).
Defined.
